(** * Mood journal PWA: offline-first persistence and cache lifecycle

    A shallow embedding of the two source files of the repository:

    - [app.js]: the [DB] module (an IndexedDB object store keyed by [date]),
      the [NetworkStatus] module (connectivity events and the sync pass) and
      the save action of the add view;
    - [sw.js]: the service worker (install, activate, fetch and message
      listeners).

    Asynchronous code is modelled by explicit state passing: every operation
    takes the state it reads (the object store, the cache storage) and
    returns the state it leaves, together with the effects it performed in
    the order in which the source performs them. *)

From Stdlib Require Import List String Ascii ZArith Bool Lia Arith PeanoNat.
From Stdlib Require Import Sorting.Sorted.
Import ListNotations.

Local Open Scope string_scope.
Local Open Scope Z_scope.
Local Open Scope list_scope.

(** ** Data model *)

(** The JavaScript values a property of a stored record can hold. *)
Inductive JsVal : Type :=
| JsUndefined
| JsNull
| JsBool (b : bool)
| JsNum (n : Z)
| JsStr (s : string).

(** One record of the [entries] object store, as the save action writes it
    (app.js, lines 441-447).  [date] is the key path of the store.  The
    [synced] property is kept as an optional JavaScript value, [None] for a
    record that has no such property, because [getUnsyncedEntries] tests it
    with the strict comparison [=== false]. *)
Record Entry : Type := mkEntry {
  date : string;
  mood : Z;
  note : string;
  timestamp : Z;
  synced : option JsVal
}.

(** [entry.synced = true] (app.js, line 181). *)
Definition set_synced (e : Entry) : Entry :=
  {| date := date e; mood := mood e; note := note e;
     timestamp := timestamp e; synced := Some (JsBool true) |}.

(** [e.synced === false] (app.js, line 173). *)
Definition synced_is_false (e : Entry) : bool :=
  match synced e with
  | Some (JsBool false) => true
  | _ => false
  end.

(** ** JavaScript built-ins used by the source *)

Module Js.

(** [String.prototype.split] with a one-character separator. *)
Fixpoint split (sep : ascii) (s : string) : list string :=
  match s with
  | EmptyString => [EmptyString]
  | String c r =>
      if Ascii.eqb c sep then EmptyString :: split sep r
      else match split sep r with
           | [] => [String c EmptyString]
           | h :: t => String c h :: t
           end
  end.

(** The result of a numeric conversion: [NaN] or a number.  Only integers
    occur below. *)
Inductive JsNumber : Type :=
| NaN
| Num (z : Z).

Definition digit_of (c : ascii) : option Z :=
  let n := Z.of_N (N_of_ascii c) in
  if (48 <=? n) && (n <=? 57) then Some (n - 48) else None.

Fixpoint digits_from (acc : Z) (s : string) : option Z :=
  match s with
  | EmptyString => Some acc
  | String c r =>
      match digit_of c with
      | Some d => digits_from (10 * acc + d) r
      | None => None
      end
  end.

(** [Number(s)] on the strings a date splits into.  The model is exact on
    the empty string (which converts to 0) and on runs of decimal digits
    short enough to be exact in a double, which covers every part of a
    [YYYY-MM-DD] date.  The other literals the built-in accepts (surrounding
    white space, signs, fractions, exponents, radix prefixes, [Infinity])
    are not modelled and convert to [NaN] here; the statements about
    [getByMonth] are restricted to ISO dates for that reason. *)
Definition Number (s : string) : JsNumber :=
  match digits_from 0 s with
  | Some z => Num z
  | None => NaN
  end.

(** [v === n] for [v] an array element that may be missing ([None] for
    [undefined]) and [n] a number. *)
Definition strict_eq_number (v : option JsNumber) (n : Z) : bool :=
  match v with
  | Some (Num z) => z =? n
  | _ => false
  end.

(** White space removed by [String.prototype.trim], on ASCII strings. *)
Definition is_space (c : ascii) : bool :=
  let n := N_of_ascii c in
  (N.eqb n 32 || (N.leb 9 n && N.leb n 13))%bool.

Fixpoint trim_start (s : string) : string :=
  match s with
  | EmptyString => EmptyString
  | String c r => if is_space c then trim_start r else s
  end.

Fixpoint trim_end (s : string) : string :=
  match s with
  | EmptyString => EmptyString
  | String c r =>
      match trim_end r with
      | EmptyString => if is_space c then EmptyString else String c EmptyString
      | r' => String c r'
      end
  end.

Definition trim (s : string) : string := trim_end (trim_start s).

(** [String(n)] for an integer [n]: its decimal digits, after a minus sign
    when it is negative.  (Exact for the integers below 10^21, which the
    built-in prints without an exponent.) *)
Definition digit_char (d : Z) : ascii := ascii_of_N (Z.to_N (48 + d)).

Fixpoint digits_of (fuel : nat) (n : Z) (acc : string) : string :=
  match fuel with
  | O => acc
  | S f =>
      let acc' := String (digit_char (n mod 10)) acc in
      if n <? 10 then acc' else digits_of f (n / 10) acc'
  end.

Definition to_string (n : Z) : string :=
  if n <? 0
  then String "-" (digits_of (S (Z.to_nat (Z.log2 (- n)))) (- n) EmptyString)
  else digits_of (S (Z.to_nat (Z.log2 n))) n EmptyString.

(** [s.padStart(n, c)] with a one-character filler. *)
Fixpoint fill (k : nat) (c : ascii) (s : string) : string :=
  match k with
  | O => s
  | S k' => String c (fill k' c s)
  end.

Definition padStart (n : nat) (c : ascii) (s : string) : string :=
  fill (n - String.length s) c s.

(** A valid [Date], by what its local-time getters return. *)
Record Date : Type := mkDate {
  getFullYear : Z;
  getMonth : Z;
  getDate : Z
}.

End Js.

(** ** Helpers (app.js, lines 14-19) *)

(** [formatDate(d)]. *)
Definition formatDate (d : Js.Date) : string :=
  let y := Js.getFullYear d in
  let m := Js.padStart 2 "0" (Js.to_string (Js.getMonth d + 1)) in
  let day := Js.padStart 2 "0" (Js.to_string (Js.getDate d)) in
  (Js.to_string y ++ "-" ++ m ++ "-" ++ day)%string.

(** ** Order on keys

    IndexedDB orders string keys by code unit; on the ASCII date strings the
    application stores this is the lexicographic order of [String.compare]. *)

Definition key_lt (a b : string) : Prop := String.compare a b = Lt.

(** ** The DB module (app.js, lines 39-107)

    The object store is the list of its records in ascending key order,
    which is the order in which [store.getAll()] returns them.  Requests are
    modelled on an opened database whose transactions complete; rejection
    through [req.onerror] is outside the model. *)

Module DB.

Definition Store : Type := list Entry.

(** Records are kept in strictly ascending key order: one record per key. *)
Definition store_ok (s : Store) : Prop :=
  StronglySorted (fun a b => key_lt (date a) (date b)) s.

(** [DB.put(entry)]: [store.put] replaces the record with the same key or
    adds the record at its place in key order. *)
Fixpoint put (entry : Entry) (s : Store) : Store :=
  match s with
  | [] => [entry]
  | x :: r =>
      match String.compare (date entry) (date x) with
      | Eq => entry :: r
      | Lt => entry :: x :: r
      | Gt => x :: put entry r
      end
  end.

(** [DB.get(date)]: the record, or [None] for [undefined]. *)
Fixpoint get (d : string) (s : Store) : option Entry :=
  match s with
  | [] => None
  | x :: r => if (d =? date x)%string then Some x else get d r
  end.

(** [DB.getAll()]. *)
Definition getAll (s : Store) : list Entry := s.

(** [DB.getByMonth(year, month)]: the records whose date, split at the
    dashes and converted part by part, starts with [year] and [month + 1]. *)
Definition in_month (year month : Z) (e : Entry) : bool :=
  let parts := map Js.Number (Js.split "-" (date e)) in
  let y := nth_error parts 0 in
  let m := nth_error parts 1 in
  Js.strict_eq_number y year && Js.strict_eq_number m (month + 1).

Definition getByMonth (year month : Z) (s : Store) : list Entry :=
  filter (in_month year month) (getAll s).

(** [DB.delete(date)]. *)
Fixpoint delete (d : string) (s : Store) : Store :=
  match s with
  | [] => []
  | x :: r => if (d =? date x)%string then r else x :: delete d r
  end.

End DB.

(** ** The NetworkStatus module (app.js, lines 111-185) *)

Module NetworkStatus.

Inductive BannerType : Type :=
| BannerOffline
| BannerOnline
| BannerSyncing.

(** What the module does to the outside, in program order. *)
Inductive Effect : Type :=
| Submit (e : Entry)
| Put (e : Entry)
| ShowBanner (type : BannerType) (count : option nat)
| AutoHide (delay : Z).

(** How an [async] function ends. *)
Inductive Outcome : Type :=
| Resolved
| Rejected.

(** The promise awaited at line 180 of app.js, once per entry: [true] when
    it resolves, [false] when it rejects.  In the source it is the timer
    that stands for the remote request ([simulated_request] below); the
    comment above it shows the awaited [fetch] that is to replace it.  The
    timer never rejects: with [simulated_request] the loop below never
    takes its [Rejected] branch. *)
Definition Submitter : Type := Entry -> bool.

Definition simulated_request : Submitter := fun _ => true.

(** [getUnsyncedEntries()]. *)
Definition getUnsyncedEntries (s : DB.Store) : list Entry :=
  filter synced_is_false (DB.getAll s).

(** [syncEntries(entries)]: the [for ... of] loop.  A rejected [await] throws
    out of the loop, as nothing in the loop catches it. *)
Fixpoint syncEntries (submit : Submitter) (entries : list Entry) (s : DB.Store)
  : DB.Store * list Effect * Outcome :=
  match entries with
  | [] => (s, [], Resolved)
  | entry :: rest =>
      if submit entry then
        let entry' := set_synced entry in
        let '(s', log, o) := syncEntries submit rest (DB.put entry' s) in
        (s', Submit entry :: Put entry' :: log, o)
      else (s, [Submit entry], Rejected)
  end.

(** [onOffline()]. *)
Definition onOffline : list Effect := [ShowBanner BannerOffline None].

(** [onOnline()]. *)
Definition onOnline (submit : Submitter) (s : DB.Store)
  : DB.Store * list Effect * Outcome :=
  let unsynced := getUnsyncedEntries s in
  if (0 <? List.length unsynced)%nat then
    let count := Some (List.length unsynced) in
    let '(s', log, o) := syncEntries submit unsynced s in
    match o with
    | Resolved =>
        (s', ShowBanner BannerSyncing count :: log
               ++ [ShowBanner BannerOnline None; AutoHide 4000], Resolved)
    | Rejected => (s', ShowBanner BannerSyncing count :: log, Rejected)
    end
  else (s, [ShowBanner BannerOnline None; AutoHide 4000], Resolved).

(** The entries handed to the submitter, in order. *)
Fixpoint submissions (log : list Effect) : list Entry :=
  match log with
  | [] => []
  | Submit e :: r => e :: submissions r
  | _ :: r => submissions r
  end.

(** *** The same code, one [await] at a time

    Each call of [onOnline] is a task that runs until its next [await] and
    is resumed when the awaited promise settles; between two resumptions
    other events are handled.  A database request takes effect when it is
    issued, since IndexedDB runs the transactions of one store in the order
    of their creation. *)

Inductive Task : Type :=
| AwaitGetAll (all : list Entry)
| AwaitSubmit (entry : Entry) (rest : list Entry) (count : nat)
| AwaitPut (rest : list Entry) (count : nat)
| Done (o : Outcome).

(** Top of the loop body of [syncEntries], or the end of the loop and the
    rest of [onOnline]. *)
Definition next_entry (rest : list Entry) (count : nat) : Task * list Effect :=
  match rest with
  | [] => (Done Resolved, [ShowBanner BannerOnline None; AutoHide 4000])
  | entry :: rest' => (AwaitSubmit entry rest' count, [Submit entry])
  end.

(** Resume a task: run it to its next [await]. *)
Definition resume (submit : Submitter) (s : DB.Store) (t : Task)
  : DB.Store * Task * list Effect :=
  match t with
  | AwaitGetAll all =>
      let unsynced := filter synced_is_false all in
      if (0 <? List.length unsynced)%nat then
        let '(t', log) := next_entry unsynced (List.length unsynced) in
        (s, t', ShowBanner BannerSyncing (Some (List.length unsynced)) :: log)
      else (s, Done Resolved, [ShowBanner BannerOnline None; AutoHide 4000])
  | AwaitSubmit entry rest count =>
      if submit entry then
        let entry' := set_synced entry in
        (DB.put entry' s, AwaitPut rest count, [Put entry'])
      else (s, Done Rejected, [])
  | AwaitPut rest count =>
      let '(t', log) := next_entry rest count in (s, t', log)
  | Done o => (s, Done o, [])
  end.

(** A pass is in flight while its task is inside [syncEntries]. *)
Definition syncing (t : Task) : bool :=
  match t with
  | AwaitSubmit _ _ _ | AwaitPut _ _ => true
  | _ => false
  end.

Record Page : Type := mkPage {
  store : DB.Store;
  tasks : list Task;
  trace : list Effect
}.

Inductive Event : Type :=
| Online
| Offline
| Settled (i : nat).

Fixpoint resume_nth (submit : Submitter) (s : DB.Store) (i : nat) (ts : list Task)
  : DB.Store * list Task * list Effect :=
  match ts, i with
  | [], _ => (s, [], [])
  | t :: r, O =>
      let '(s', t', log) := resume submit s t in (s', t' :: r, log)
  | t :: r, S j =>
      let '(s', r', log) := resume_nth submit s j r in (s', t :: r', log)
  end.

(** One event of the page's event loop: the [online] and [offline]
    listeners registered by [init] (lines 119-120), and the settlement of
    the promise task [i] awaits. *)
Definition handle (submit : Submitter) (p : Page) (ev : Event) : Page :=
  match ev with
  | Online =>
      {| store := store p;
         tasks := tasks p ++ [AwaitGetAll (DB.getAll (store p))];
         trace := trace p |}
  | Offline =>
      {| store := store p; tasks := tasks p; trace := trace p ++ onOffline |}
  | Settled i =>
      let '(s', ts', log) := resume_nth submit (store p) i (tasks p) in
      {| store := s'; tasks := ts'; trace := trace p ++ log |}
  end.

Definition run (submit : Submitter) (p : Page) (evs : list Event) : Page :=
  fold_left (handle submit) evs p.

(** Number of sync passes in flight. *)
Definition passes_in_flight (p : Page) : nat :=
  List.length (filter syncing (tasks p)).

End NetworkStatus.

(** ** The save action of the add view (app.js, lines 438-453) *)

Module UI.

Inductive Feedback : Type :=
| Saved
| SavedLocally.

(** The click handler of [#save-entry].  [selectedMood] is [None] for
    [null]; [onLine] is [navigator.onLine] and [now] is [Date.now()] at the
    click.  Returns the store and, when a record was written, the record
    and the feedback shown. *)
Definition save (selectedMood : option Z) (dateInput noteInput : string)
    (now : Z) (onLine : bool) (s : DB.Store)
  : DB.Store * option (Entry * Feedback) :=
  match selectedMood with
  | None => (s, None)
  | Some m =>
      if m =? 0 then (s, None)
      else
        let entry := {| date := dateInput; mood := m;
                        note := Js.trim noteInput; timestamp := now;
                        synced := Some (JsBool onLine) |} in
        (DB.put entry s, Some (entry, if onLine then Saved else SavedLocally))
  end.




End UI.

(** ** The service worker (sw.js) *)

Module SW.

Definition CACHE_NAME : string := "mood-journal-v2".

Definition ASSETS : list string :=
  [ "./"; "./index.html"; "./style.css"; "./app.js"; "./manifest.json";
    "./icons/icon-192.svg"; "./icons/icon-512.svg"; "./icons/splash.svg";
    "./icons/screenshots/mobile.svg"; "./icons/screenshots/desktop.svg" ].

(** [request.mode]. *)
Inductive RequestMode : Type :=
| ModeNavigate
| ModeSameOrigin
| ModeNoCors
| ModeCors.

(** [response.type]. *)
Inductive ResponseType : Type :=
| TypeBasic
| TypeCors
| TypeDefault
| TypeError
| TypeOpaque
| TypeOpaqueRedirect.

(** A request the Cache API can store: a GET request, identified by its
    URL.  URLs are written relative to the worker's scope, as in [ASSETS]. *)
Record Request : Type := mkRequest {
  url : string;
  mode : RequestMode
}.

Record Response : Type := mkResponse {
  status : Z;
  type : ResponseType;
  body : string
}.

(** [fetch]: the response, or [None] when the promise rejects. *)
Definition Network : Type := string -> option Response.

(** One cache object: responses by request URL. *)
Definition Cache : Type := list (string * Response).

(** [caches]: the named cache objects, in order of creation. *)
Definition CacheStorage : Type := list (string * Cache).

(** [cache.match(url)]. *)
Fixpoint cache_match (u : string) (c : Cache) : option Response :=
  match c with
  | [] => None
  | (k, r) :: rest => if (k =? u)%string then Some r else cache_match u rest
  end.

(** [cache.put(url, response)]. *)
Fixpoint cache_put (u : string) (resp : Response) (c : Cache) : Cache :=
  match c with
  | [] => [(u, resp)]
  | (k, r) :: rest =>
      if (k =? u)%string then (k, resp) :: rest
      else (k, r) :: cache_put u resp rest
  end.

(** [caches.match(url)]: the first match, cache by cache. *)
Fixpoint caches_match (u : string) (cs : CacheStorage) : option Response :=
  match cs with
  | [] => None
  | (_, c) :: rest =>
      match cache_match u c with
      | Some r => Some r
      | None => caches_match u rest
      end
  end.

(** [caches.open(name).then(cache => cache.put(url, response))]; [open]
    creates the cache object when there is none of that name. *)
Fixpoint caches_put (name u : string) (resp : Response) (cs : CacheStorage)
  : CacheStorage :=
  match cs with
  | [] => [(name, [(u, resp)])]
  | (n, c) :: rest =>
      if (n =? name)%string then (n, cache_put u resp c) :: rest
      else (n, c) :: caches_put name u resp rest
  end.

(** What the Cache API refuses to store: a partial response (status 206).
    [cache.put] rejects with it and stores nothing; [cache.addAll] rejects
    with it as it does with a status that is not ok. *)
Definition partial (r : Response) : bool := status r =? 206.

(** [cache.put] as the [fetch] listener calls it: when the response is
    refused the promise rejects, nobody awaits it, and the storage is left
    as it was. *)
Definition caches_try_put (name u : string) (resp : Response)
    (cs : CacheStorage) : CacheStorage :=
  if partial resp then cs else caches_put name u resp cs.

(** [caches.open(name)] alone. *)
Fixpoint caches_open (name : string) (cs : CacheStorage) : CacheStorage :=
  match cs with
  | [] => [(name, [])]
  | (n, c) :: rest =>
      if (n =? name)%string then cs else (n, c) :: caches_open name rest
  end.

(** The cache object of a given name. *)
Fixpoint caches_get (name : string) (cs : CacheStorage) : option Cache :=
  match cs with
  | [] => None
  | (n, c) :: rest => if (n =? name)%string then Some c else caches_get name rest
  end.

(** [response.ok]. *)
Definition ok (r : Response) : bool := (200 <=? status r) && (status r <=? 299).

(** A response [cache.addAll] accepts. *)
Definition addable (r : Response) : bool := ok r && negb (partial r).

(** The fetches of [cache.addAll(urls)]: every response, or [None] as soon
    as one fetch fails or answers with a response that is not accepted. *)
Fixpoint fetch_all (net : Network) (urls : list string)
  : option (list (string * Response)) :=
  match urls with
  | [] => Some []
  | u :: rest =>
      match net u with
      | Some r =>
          if addable r then
            match fetch_all net rest with
            | Some rs => Some ((u, r) :: rs)
            | None => None
            end
          else None
      | None => None
      end
  end.

(** The worker's own state: the cache storage and what the listeners set
    through [self.skipWaiting()] and [self.clients.claim()]. *)
Record Worker : Type := mkWorker {
  caches : CacheStorage;
  skipWaiting : bool;
  claimed : bool
}.

(** How the promise given to [event.waitUntil] or the listener ends. *)
Inductive Outcome : Type :=
| Fulfilled
| Failed.

(** The [install] listener (lines 16-22). *)
Definition on_install (net : Network) (w : Worker) : Worker * Outcome :=
  let cs := caches_open CACHE_NAME (caches w) in
  match fetch_all net ASSETS with
  | Some rs =>
      let cs' :=
        fold_left (fun acc ur => caches_put CACHE_NAME (fst ur) (snd ur) acc)
                  rs cs in
      ({| caches := cs'; skipWaiting := true; claimed := claimed w |},
       Fulfilled)
  | None =>
      ({| caches := cs; skipWaiting := skipWaiting w; claimed := claimed w |},
       Failed)
  end.

(** [caches.delete(name)]. *)
Definition caches_delete (name : string) (cs : CacheStorage) : CacheStorage :=
  filter (fun nc => negb (fst nc =? name)%string) cs.

(** The [activate] listener (lines 25-33): every key that differs from
    [CACHE_NAME] is deleted, then the clients are claimed. *)
Definition on_activate (w : Worker) : Worker :=
  let keys := map fst (caches w) in
  let stale := filter (fun k => negb (k =? CACHE_NAME)%string) keys in
  {| caches := fold_left (fun cs k => caches_delete k cs) stale (caches w);
     skipWaiting := skipWaiting w;
     claimed := true |}.

(** The [message] listener (lines 64-68); [data] is [event.data]. *)
Definition on_message (data : JsVal) (w : Worker) : Worker :=
  match data with
  | JsStr s =>
      if (s =? "skipWaiting")%string then
        {| caches := caches w; skipWaiting := true; claimed := claimed w |}
      else w
  | _ => w
  end.

(** What [event.respondWith] is given. *)
Inductive FetchResult : Type :=
| Responded (r : Response)
| RespondedUndefined
| FetchRejected.

Record FetchOutcome : Type := mkFetchOutcome {
  result : FetchResult;
  caches_after : CacheStorage;
  fetched : list string
}.

(** The [fetch] listener (lines 36-61).  [caches_after] is the cache
    storage once the [cache.put] the listener started has settled;
    [fetched] lists the URLs asked from the network. *)
Definition on_fetch (net : Network) (cs : CacheStorage) (request : Request)
  : FetchOutcome :=
  match mode request with
  | ModeNavigate =>
      match net (url request) with
      | Some response =>
          {| result := Responded response;
             caches_after :=
               caches_try_put CACHE_NAME (url request) response cs;
             fetched := [url request] |}
      | None =>
          {| result := match caches_match "./index.html" cs with
                       | Some r => Responded r
                       | None => RespondedUndefined
                       end;
             caches_after := cs;
             fetched := [url request] |}
      end
  | _ =>
      match caches_match (url request) cs with
      | Some cached =>
          {| result := Responded cached; caches_after := cs; fetched := [] |}
      | None =>
          match net (url request) with
          | Some response =>
              {| result := Responded response;
                 caches_after :=
                   if (status response =? 200)
                      && match type response with
                         | TypeBasic => true
                         | _ => false
                         end
                   then caches_try_put CACHE_NAME (url request) response cs
                   else cs;
                 fetched := [url request] |}
          | None =>
              {| result := FetchRejected; caches_after := cs;
                 fetched := [url request] |}
          end
      end
  end.

(** *** Life cycle of a generation

    The browser drives a worker through its states; the listeners above
    only set [skipWaiting].  The rules below are those of the platform: an
    installed worker waits while an older worker is active and controls an
    open page, unless its [skipWaiting] flag is set. *)

Inductive Phase : Type :=
| Installing
| Waiting
| Active
| Redundant.

Record Generation : Type := mkGeneration {
  worker : Worker;
  phase : Phase;
  older_active : bool
}.

(** Activation of a waiting generation, when the platform allows it. *)
Definition try_activate (g : Generation) : Generation :=
  match phase g with
  | Waiting =>
      if skipWaiting (worker g) || negb (older_active g) then
        {| worker := on_activate (worker g); phase := Active;
           older_active := false |}
      else g
  | _ => g
  end.

(** The [install] event of a new generation. *)
Definition install_event (net : Network) (g : Generation) : Generation :=
  match phase g with
  | Installing =>
      match on_install net (worker g) with
      | (w, Fulfilled) =>
          try_activate
            {| worker := w; phase := Waiting; older_active := older_active g |}
      | (w, Failed) =>
          {| worker := w; phase := Redundant; older_active := older_active g |}
      end
  | _ => g
  end.

(** A message posted to the generation by a page. *)
Definition message_event (data : JsVal) (g : Generation) : Generation :=
  match phase g with
  | Redundant => g
  | _ =>
      try_activate
        {| worker := on_message data (worker g); phase := phase g;
           older_active := older_active g |}
  end.

(** A newly registered generation of this script, next to an older active
    one when [older] is set. *)
Definition new_generation (cs : CacheStorage) (older : bool) : Generation :=
  {| worker := {| caches := cs; skipWaiting := false; claimed := false |};
     phase := Installing; older_active := older |}.

(** The events delivered to a generation. *)
Inductive Step : Type :=
| Install (net : Network)
| Message (data : JsVal).

Definition step (g : Generation) (st : Step) : Generation :=
  match st with
  | Install net => install_event net g
  | Message data => message_event data g
  end.

Definition steps (g : Generation) (l : list Step) : Generation :=
  fold_left step l g.

(** The cache storage after the worker has handled the given fetches, each
    with the network as it was then. *)
Definition serve (cs : CacheStorage) (reqs : list (Network * Request))
  : CacheStorage :=
  fold_left (fun acc nr => caches_after (on_fetch (fst nr) acc (snd nr)))
            reqs cs.

End SW.

(** ** The Stats module (app.js, lines 264-291): the counters

    [average] and [trend] are quotients of doubles and are not modelled;
    [count], the sum of the moods and [distribution] are. *)

Module Stats.

(** A JavaScript array of numbers: each element is a number or a hole. *)
Definition NumArray : Type := list (option Js.JsNumber).

(** [x++] on the value read from an element or a hole ([undefined]). *)
Definition incremented (v : option Js.JsNumber) : option Js.JsNumber :=
  match v with
  | Some (Js.Num z) => Some (Js.Num (z + 1))
  | _ => Some Js.NaN
  end.

Fixpoint incr_nth (i : nat) (a : NumArray) : NumArray :=
  match i, a with
  | O, [] => [incremented None]
  | O, v :: r => incremented v :: r
  | S j, [] => None :: incr_nth j []
  | S j, v :: r => v :: incr_nth j r
  end.

(** [a[idx]++]: an index past the end extends the array with holes; a
    negative index names a property that is no element, and the elements
    stay as they are. *)
Definition incr_at (idx : Z) (a : NumArray) : NumArray :=
  if idx <? 0 then a else incr_nth (Z.to_nat idx) a.

(** [entries.length]. *)
Definition count (entries : list Entry) : Z := Z.of_nat (List.length entries).

(** [entries.reduce((acc, e) => acc + e.mood, 0)] (line 270). *)
Definition sum (entries : list Entry) : Z :=
  fold_left (fun acc e => acc + mood e) entries 0.

(** [distribution] (lines 273-274). *)
Definition distribution (entries : list Entry) : NumArray :=
  fold_left (fun a e => incr_at (mood e - 1) a) entries
    [Some (Js.Num 0); Some (Js.Num 0); Some (Js.Num 0); Some (Js.Num 0);
     Some (Js.Num 0)].

End Stats.

(** ** The InstallPrompt module (app.js, lines 678-711): the dismissal *)

Module InstallPrompt.

(** [dismissInstall()]: the value stored under [install-dismissed] when the
    clock reads [now]. *)
Definition dismissInstall (now : Z) : string := Js.to_string now.

(** [x < y] with [x] the difference of the clock and a converted string. *)
Definition elapsed_below (now : Z) (since : Js.JsNumber) (limit : Z) : bool :=
  match since with
  | Js.Num z => now - z <? limit
  | Js.NaN => false
  end.

(** [showInstallBanner()]: whether it goes on to show the banner, with
    [dismissed] the value read from [install-dismissed] ([None] for
    [null]) and [now] the clock.  The empty string is falsy. *)
Definition showInstallBanner (now : Z) (dismissed : option string) : bool :=
  match dismissed with
  | None => true
  | Some EmptyString => true
  | Some d =>
      negb (elapsed_below now (Js.Number d) (7 * 24 * 60 * 60 * 1000))
  end.

End InstallPrompt.

(** ** The page: connectivity events and clicks

    The listeners of the add view and of the history view run on the same
    event loop as the tasks of [NetworkStatus]; their requests to the store
    take effect when issued, like those of the tasks. *)

Module PageEvents.

(** [SaveClick]: the click on [#save-entry] (lines 438-453);
    [DeleteClick]: the click on a delete button of the history view, once
    confirmed (lines 624-631). *)
Inductive UserEvent : Type :=
| Connectivity (ev : NetworkStatus.Event)
| SaveClick (selectedMood : option Z) (dateInput noteInput : string)
            (now : Z) (onLine : bool)
| DeleteClick (d : string).

Definition handle_user (submit : NetworkStatus.Submitter)
    (p : NetworkStatus.Page) (ue : UserEvent) : NetworkStatus.Page :=
  match ue with
  | Connectivity ev => NetworkStatus.handle submit p ev
  | SaveClick selectedMood dateInput noteInput now onLine =>
      {| NetworkStatus.store :=
           fst (UI.save selectedMood dateInput noteInput now onLine
                  (NetworkStatus.store p));
         NetworkStatus.tasks := NetworkStatus.tasks p;
         NetworkStatus.trace := NetworkStatus.trace p |}
  | DeleteClick d =>
      {| NetworkStatus.store := DB.delete d (NetworkStatus.store p);
         NetworkStatus.tasks := NetworkStatus.tasks p;
         NetworkStatus.trace := NetworkStatus.trace p |}
  end.

Definition run_user (submit : NetworkStatus.Submitter)
    (p : NetworkStatus.Page) (ues : list UserEvent) : NetworkStatus.Page :=
  fold_left (handle_user submit) ues p.

End PageEvents.

(** ** Histories of the object store *)

(** The two requests that change the store. *)
Inductive Write : Type :=
| WPut (entry : Entry)
| WDelete (d : string).

Definition apply_write (s : DB.Store) (w : Write) : DB.Store :=
  match w with
  | WPut entry => DB.put entry s
  | WDelete d => DB.delete d s
  end.

(** The store after the given requests, from the empty store that
    [onupgradeneeded] creates. *)
Definition replay (ws : list Write) : DB.Store := fold_left apply_write ws [].

(** ** Reference notions the statements compare the code with *)

(** A record whose flag is [false] with the flag set, any other record as it
    is: what a completed sync pass makes of a stored record. *)
Definition converge (x : Entry) : Entry :=
  if synced_is_false x then set_synced x else x.

(** The same for the records whose key is listed in [ds] only. *)
Definition has_date (ds : list string) (x : Entry) : bool :=
  existsb (String.eqb (date x)) ds.

Definition mark (ds : list string) (x : Entry) : Entry :=
  if has_date ds x then set_synced x else x.

(** The entries of a queue whose submission succeeds, up to the first one
    that fails. *)
Fixpoint accepted (submit : NetworkStatus.Submitter) (l : list Entry)
  : list Entry :=
  match l with
  | [] => []
  | e :: r => if submit e then e :: accepted submit r else []
  end.

(** The entry on which a pass over the queue stops, if any. *)
Fixpoint first_rejected (submit : NetworkStatus.Submitter) (l : list Entry)
  : option Entry :=
  match l with
  | [] => None
  | e :: r => if submit e then first_rejected submit r else Some e
  end.

(** How a pass over the queue ends: the submission that failed, if any,
    and the outcome. *)
Definition stop_log (submit : NetworkStatus.Submitter) (l : list Entry)
  : list NetworkStatus.Effect :=
  match first_rejected submit l with
  | Some e => [NetworkStatus.Submit e]
  | None => []
  end.

Definition stop_outcome (submit : NetworkStatus.Submitter) (l : list Entry)
  : NetworkStatus.Outcome :=
  match first_rejected submit l with
  | Some _ => NetworkStatus.Rejected
  | None => NetworkStatus.Resolved
  end.

(** How many of the entries have the given mood. *)
Definition with_mood (m : Z) (entries : list Entry) : Z :=
  Z.of_nat (List.length (filter (fun e => mood e =? m) entries)).

(** The log of a pass in which every submission succeeds: each entry is
    submitted, then stored with its flag set, before the next one. *)
Definition alternating (l : list Entry) : list NetworkStatus.Effect :=
  flat_map (fun e => [NetworkStatus.Submit e; NetworkStatus.Put (set_synced e)]) l.

(** What [onOnline] does after the loop, by the way the loop ended. *)
Definition trailer (o : NetworkStatus.Outcome) : list NetworkStatus.Effect :=
  match o with
  | NetworkStatus.Resolved =>
      [NetworkStatus.ShowBanner NetworkStatus.BannerOnline None;
       NetworkStatus.AutoHide 4000]
  | NetworkStatus.Rejected => []
  end.

(** *** Calendar dates

    The data model gives [date] as an ISO calendar date, [YYYY-MM-DD]; its
    year is the number written by the first four characters and its month
    the number written by the sixth and seventh. *)

Definition is_digit (c : ascii) : bool :=
  let n := N_of_ascii c in (N.leb 48 n && N.leb n 57)%bool.

Fixpoint all_digits (s : string) : bool :=
  match s with
  | EmptyString => true
  | String c r => is_digit c && all_digits r
  end.

Fixpoint decimal_from (acc : Z) (s : string) : Z :=
  match s with
  | EmptyString => acc
  | String c r => decimal_from (10 * acc + (Z.of_N (N_of_ascii c) - 48)) r
  end.

Definition decimal (s : string) : Z := decimal_from 0 s.

Definition iso_date (d : string) : bool :=
  (String.length d =? 10)%nat
  && all_digits (substring 0 4 d)
  && (substring 4 1 d =? "-")%string
  && all_digits (substring 5 2 d)
  && (substring 7 1 d =? "-")%string
  && all_digits (substring 8 2 d).

Definition year_of (d : string) : Z := decimal (substring 0 4 d).

Definition month_of (d : string) : Z := decimal (substring 5 2 d).

(** ** Stores and collaborators used as concrete inputs *)

Module Scenario.

Definition may01 : Entry := mkEntry "2024-05-01" 4 "ok" 1714550400000 (Some (JsBool false)).
Definition may15 : Entry := mkEntry "2024-05-15" 2 "" 1715760000000 (Some (JsBool false)).
Definition may20 : Entry := mkEntry "2024-05-20" 5 "sun" 1716192000000 (Some (JsBool false)).

(** Scenario B of the specification: two unsynced records. *)
Definition two_unsynced : DB.Store := [may01; may15].

Definition three_unsynced : DB.Store := [may01; may15; may20].

(** A remote service that rejects the record of 15 May and accepts every
    other one. *)
Definition rejects_may15 : NetworkStatus.Submitter :=
  fun e => negb (date e =? "2024-05-15")%string.

(** A network on which every fetch answers 200 from the same origin. *)
Definition reachable : SW.Network :=
  fun u => Some (SW.mkResponse 200 SW.TypeBasic u).

(** No network. *)
Definition unreachable : SW.Network := fun _ => None.

End Scenario.

(** * Facts *)

(** ** Order on keys *)

Lemma ascii_compare_lt_trans (a b c : ascii) :
  Ascii.compare a b = Lt -> Ascii.compare b c = Lt -> Ascii.compare a c = Lt.
Proof.
  unfold Ascii.compare. rewrite !N.compare_lt_iff. apply N.lt_trans.
Qed.

Lemma compare_refl (a : string) : String.compare a a = Eq.
Proof.
  induction a as [|c a IH]; simpl; [reflexivity|].
  unfold Ascii.compare. now rewrite N.compare_refl.
Qed.

Lemma compare_gt_lt (a b : string) :
  String.compare a b = Gt -> key_lt b a.
Proof.
  unfold key_lt. rewrite (String.compare_antisym b a).
  now intros ->.
Qed.

Lemma key_lt_trans (a b c : string) : key_lt a b -> key_lt b c -> key_lt a c.
Proof.
  unfold key_lt. revert b c.
  induction a as [|x a IH]; intros [|y b] [|z c]; simpl; try congruence.
  destruct (Ascii.compare x y) eqn:Hxy; try congruence.
  - apply Ascii.compare_eq_iff in Hxy; subst y.
    destruct (Ascii.compare x z); try congruence. apply IH.
  - intros _. destruct (Ascii.compare y z) eqn:Hyz; try congruence.
    + apply Ascii.compare_eq_iff in Hyz; subst z. now rewrite Hxy.
    + intros _. now rewrite (ascii_compare_lt_trans _ _ _ Hxy Hyz).
Qed.

Lemma key_lt_irrefl (a : string) : ~ key_lt a a.
Proof. unfold key_lt. rewrite compare_refl. discriminate. Qed.

Lemma key_lt_asym (a b : string) : key_lt a b -> ~ key_lt b a.
Proof. intros H1 H2. exact (key_lt_irrefl a (key_lt_trans _ _ _ H1 H2)). Qed.

Lemma key_lt_neq (a b : string) : key_lt a b -> (b =? a)%string = false.
Proof.
  intros H. apply String.eqb_neq. intros ->. exact (key_lt_irrefl _ H).
Qed.

(** ** The object store *)

Section StoreFacts.

Import DB.

Lemma store_ok_inv (x : Entry) (r : Store) :
  store_ok (x :: r) ->
  store_ok r /\ Forall (fun y => key_lt (date x) (date y)) r.
Proof. apply StronglySorted_inv. Qed.

Lemma put_Forall (P : Entry -> Prop) (e : Entry) (s : Store) :
  P e -> Forall P s -> Forall P (put e s).
Proof.
  intros He. induction 1 as [|x r Hx Hr IH]; simpl.
  - constructor; [exact He|constructor].
  - destruct (String.compare (date e) (date x)); repeat constructor; auto.
Qed.

(** Writing keeps the store in key order, one record per key. *)
Lemma put_ok (e : Entry) (s : Store) : store_ok s -> store_ok (put e s).
Proof.
  induction s as [|x r IH]; intros Hs; simpl.
  - repeat constructor.
  - apply store_ok_inv in Hs. destruct Hs as [Hr Hx].
    destruct (String.compare (date e) (date x)) eqn:Hc.
    + apply String.compare_eq_iff in Hc.
      constructor; [exact Hr|]. now rewrite Hc.
    + constructor.
      * constructor; assumption.
      * constructor; [exact Hc|].
        eapply Forall_impl; [|exact Hx]. intros y Hy.
        exact (key_lt_trans _ _ _ Hc Hy).
    + constructor; [exact (IH Hr)|].
      apply put_Forall; [|exact Hx]. now apply compare_gt_lt.
Qed.

Lemma get_put_same (e : Entry) (s : Store) : get (date e) (put e s) = Some e.
Proof.
  induction s as [|x r IH]; simpl.
  - now rewrite String.eqb_refl.
  - destruct (String.compare (date e) (date x)) eqn:Hc; simpl.
    + now rewrite String.eqb_refl.
    + now rewrite String.eqb_refl.
    + apply compare_gt_lt in Hc. now rewrite (key_lt_neq _ _ Hc).
Qed.

Lemma get_put_other (d : string) (e : Entry) (s : Store) :
  d <> date e -> get d (put e s) = get d s.
Proof.
  intros Hd. apply String.eqb_neq in Hd.
  induction s as [|x r IH]; simpl.
  - now rewrite Hd.
  - destruct (String.compare (date e) (date x)) eqn:Hc; simpl.
    + apply String.compare_eq_iff in Hc. now rewrite <- Hc, Hd.
    + now rewrite Hd.
    + now rewrite IH.
Qed.

Lemma store_ok_In_get (s : Store) (x : Entry) :
  store_ok s -> In x s -> get (date x) s = Some x.
Proof.
  induction s as [|y r IH]; intros Hs Hin; [contradiction|].
  apply store_ok_inv in Hs. destruct Hs as [Hr Hy]. simpl.
  destruct Hin as [->|Hin]; [now rewrite String.eqb_refl|].
  rewrite Forall_forall in Hy.
  rewrite (key_lt_neq _ _ (Hy x Hin)). auto.
Qed.

Lemma get_In (d : string) (s : Store) (x : Entry) :
  get d s = Some x -> In x s /\ date x = d.
Proof.
  induction s as [|y r IH]; simpl; [discriminate|].
  destruct (d =? date y)%string eqn:Hd.
  - intros [= ->]. apply String.eqb_eq in Hd. auto.
  - intros H. destruct (IH H). auto.
Qed.

(** One record per key. *)
Lemma store_ok_date_inj (s : Store) (x y : Entry) :
  store_ok s -> In x s -> In y s -> date x = date y -> x = y.
Proof.
  intros Hs Hx Hy Hd.
  pose proof (store_ok_In_get s x Hs Hx) as Gx.
  pose proof (store_ok_In_get s y Hs Hy) as Gy.
  rewrite Hd in Gx. congruence.
Qed.

Lemma store_ok_map (f : Entry -> Entry) (s : Store) :
  (forall x, date (f x) = date x) -> store_ok s -> store_ok (map f s).
Proof.
  intros Hf. induction 1 as [|x r Hr IH Hx]; simpl; constructor; auto.
  rewrite Forall_map. eapply Forall_impl; [|exact Hx].
  intros y Hy. now rewrite !Hf.
Qed.

Lemma store_ok_NoDup (s : Store) : store_ok s -> NoDup (map date s).
Proof.
  induction 1 as [|x r Hr IH Hx]; simpl; constructor; auto.
  rewrite in_map_iff. intros [y [Hd Hy]].
  rewrite Forall_forall in Hx. specialize (Hx y Hy).
  rewrite Hd in Hx. exact (key_lt_irrefl _ Hx).
Qed.

(** Writing a record whose key is present replaces that record in place. *)
Lemma put_replace (e : Entry) (s : Store) :
  store_ok s -> (exists e0, In e0 s /\ date e0 = date e) ->
  put e s = map (fun x => if (date x =? date e)%string then e else x) s.
Proof.
  induction s as [|x r IH]; intros Hs [e0 [Hin Hd]]; [contradiction|].
  pose proof Hs as Hs0.
  apply store_ok_inv in Hs. destruct Hs as [Hr Hx].
  rewrite Forall_forall in Hx. simpl.
  destruct (String.compare (date e) (date x)) eqn:Hc.
  - apply String.compare_eq_iff in Hc.
    rewrite Hc, String.eqb_refl. f_equal.
    rewrite <- (map_id r) at 1. apply map_ext_in.
    intros y Hy. now rewrite (key_lt_neq _ _ (Hx y Hy)).
  - exfalso. destruct Hin as [->|Hin].
    + rewrite Hd, compare_refl in Hc. discriminate.
    + specialize (Hx e0 Hin). rewrite Hd in Hx.
      exact (key_lt_asym _ _ Hc Hx).
  - apply compare_gt_lt in Hc.
    rewrite String.eqb_sym, (key_lt_neq _ _ Hc). f_equal.
    apply IH; [exact Hr|].
    destruct Hin as [->|Hin].
    + rewrite Hd in Hc. destruct (key_lt_irrefl _ Hc).
    + now exists e0.
Qed.

(** Deleting a key that is not there changes nothing; deleting one that is
    there removes its record and no other. *)
Lemma delete_absent (d : string) (s : Store) :
  get d s = None -> delete d s = s.
Proof.
  induction s as [|x r IH]; simpl; [reflexivity|].
  destruct (d =? date x)%string; [discriminate|].
  intros H. now rewrite IH.
Qed.

Lemma get_delete_other (d d' : string) (s : Store) :
  d' <> d -> get d' (delete d s) = get d' s.
Proof.
  intros Hd. induction s as [|x r IH]; simpl; [reflexivity|].
  destruct (String.eqb_spec d (date x)) as [->|Hx]; simpl.
  - apply String.eqb_neq in Hd. now rewrite Hd.
  - now rewrite IH.
Qed.

Lemma get_delete_same (d : string) (s : Store) :
  store_ok s -> get d (delete d s) = None.
Proof.
  induction s as [|x r IH]; intros Hs; simpl; [reflexivity|].
  apply store_ok_inv in Hs. destruct Hs as [Hr Hx].
  destruct (String.eqb_spec d (date x)) as [->|Hd]; simpl.
  - destruct (get (date x) r) as [y|] eqn:Hy; [|reflexivity].
    apply get_In in Hy. destruct Hy as [Hin Hdy].
    rewrite Forall_forall in Hx. specialize (Hx y Hin).
    rewrite Hdy in Hx. destruct (key_lt_irrefl _ Hx).
  - apply String.eqb_neq in Hd. rewrite Hd. now apply IH.
Qed.

End StoreFacts.

(** C6: writing an entry and then reading its date gives back that very
    entry, all five fields, also when the write replaces a record that
    was stored under the same date. *)
Theorem put_get_round_trip :
  forall (e : Entry) (s : DB.Store) (m0 : Z) (n0 : string) (t0 : Z)
         (sy0 : option JsVal),
    DB.get (date e) (DB.put e s) = Some e /\
    DB.get (date e) (DB.put e (DB.put (mkEntry (date e) m0 n0 t0 sy0) s))
      = Some e.
Proof.
  intros. split; apply get_put_same.
Qed.

(** ** The sync pass *)

Section SyncFacts.

Import DB NetworkStatus.

Variable submit : Submitter.

Lemma set_synced_idem (x : Entry) : set_synced (set_synced x) = set_synced x.
Proof. reflexivity. Qed.

Lemma date_mark (ds : list string) (x : Entry) : date (mark ds x) = date x.
Proof. unfold mark. now destruct (has_date ds x). Qed.

Lemma date_converge (x : Entry) : date (converge x) = date x.
Proof. unfold converge. now destruct (synced_is_false x). Qed.

Lemma synced_is_false_iff (x : Entry) :
  synced_is_false x = true <-> synced x = Some (JsBool false).
Proof.
  unfold synced_is_false.
  destruct (synced x) as [[| |[|]| |]|]; split; congruence.
Qed.

Lemma mark_cons (d : string) (ds : list string) (x : Entry) :
  mark ds (mark [d] x) = mark (d :: ds) x.
Proof.
  unfold mark, has_date. simpl. rewrite orb_false_r.
  destruct (date x =? d)%string; simpl.
  - now destruct (existsb _ ds).
  - reflexivity.
Qed.

Lemma has_date_In (l : list Entry) (x : Entry) :
  has_date (map date l) x = true <-> exists y, In y l /\ date y = date x.
Proof.
  unfold has_date. rewrite existsb_exists. split.
  - intros [d [Hd He]]. apply in_map_iff in Hd. destruct Hd as [y [<- Hy]].
    apply String.eqb_eq in He. eauto.
  - intros [y [Hy Hd]]. exists (date y). split; [now apply in_map|].
    now apply String.eqb_eq.
Qed.

(** A pass whose submissions all succeed, over entries taken from the
    store: the listed records get their flag set, in place; the log
    alternates submission and write. *)
Lemma syncEntries_all_ok (l : list Entry) :
  forall s : Store,
    store_ok s -> incl l s -> NoDup (map date l) ->
    (forall e, In e l -> submit e = true) ->
    syncEntries submit l s = (map (mark (map date l)) s, alternating l, Resolved).
Proof.
  induction l as [|e l IH]; intros s Hs Hin Hnd Hok; simpl.
  - f_equal. f_equal. rewrite <- (map_id s) at 1. reflexivity.
  - rewrite (Hok e (or_introl eq_refl)).
    assert (He : In e s) by (apply Hin; now left).
    assert (Hput : put (set_synced e) s = map (mark [date e]) s).
    { rewrite put_replace; [|exact Hs|now exists e].
      apply map_ext_in. intros x Hx. unfold mark, has_date. simpl.
      rewrite orb_false_r.
      destruct (date x =? date e)%string eqn:Hd; [|reflexivity].
      apply String.eqb_eq in Hd.
      now rewrite (store_ok_date_inj s x e Hs Hx He Hd). }
    rewrite Hput.
    inversion Hnd as [|d ds Hnotin Hnd']; subst.
    rewrite IH; [rewrite map_map; f_equal; f_equal| | |exact Hnd'|].
    + apply map_ext. intros x. apply mark_cons.
    + apply store_ok_map; [intros x; apply date_mark|exact Hs].
    + intros y Hy. apply in_map_iff. exists y. split.
      * unfold mark, has_date. simpl. rewrite orb_false_r.
        destruct (date y =? date e)%string eqn:Hd; [|reflexivity].
        apply String.eqb_eq in Hd. exfalso. apply Hnotin.
        rewrite <- Hd. now apply in_map.
      * apply Hin. now right.
    + intros y Hy. apply Hok. now right.
Qed.

Lemma unsynced_incl (s : Store) : incl (getUnsyncedEntries s) s.
Proof. intros x Hx. apply filter_In in Hx. tauto. Qed.

Lemma dates_filter_NoDup (keep : Entry -> bool) (s : Store) :
  NoDup (map date s) -> NoDup (map date (filter keep s)).
Proof.
  induction s as [|x r IH]; simpl; intros H; [constructor|].
  inversion H as [|? ? Hx Hr]; subst.
  destruct (keep x); simpl; [constructor|]; auto.
  rewrite in_map_iff. intros [y [Hy Hin]]. apply Hx.
  rewrite <- Hy. apply in_map. apply filter_In in Hin. tauto.
Qed.

Lemma unsynced_NoDup (s : Store) :
  store_ok s -> NoDup (map date (getUnsyncedEntries s)).
Proof. intros Hs. apply dates_filter_NoDup. now apply store_ok_NoDup. Qed.

(** Marking the unsynced records of a store is [converge]. *)
Lemma mark_unsynced (s : Store) :
  store_ok s ->
  map (mark (map date (getUnsyncedEntries s))) s = map converge s.
Proof.
  intros Hs. apply map_ext_in. intros x Hx. unfold mark, converge.
  destruct (synced_is_false x) eqn:Hf.
  - assert (H : has_date (map date (getUnsyncedEntries s)) x = true).
    { apply has_date_In. exists x. split; [|reflexivity].
      apply filter_In. auto. }
    now rewrite H.
  - destruct (has_date (map date (getUnsyncedEntries s)) x) eqn:H;
      [|reflexivity].
    apply has_date_In in H. destruct H as [y [Hy Hd]].
    apply filter_In in Hy. destruct Hy as [Hy Hyf].
    rewrite (store_ok_date_inj s y x Hs Hy Hx Hd) in Hyf. congruence.
Qed.

Lemma unsynced_converge (s : Store) : getUnsyncedEntries (map converge s) = [].
Proof.
  unfold getUnsyncedEntries, getAll.
  induction s as [|x r IH]; simpl; [reflexivity|].
  assert (H : synced_is_false (converge x) = false).
  { unfold converge. destruct (synced_is_false x) eqn:Hx; [reflexivity|exact Hx]. }
  now rewrite H.
Qed.

End SyncFacts.

Section SyncTheorems.

Import DB NetworkStatus.

Lemma submissions_app (a b : list Effect) :
  submissions (a ++ b) = submissions a ++ submissions b.
Proof.
  induction a as [|x a IH]; simpl; [reflexivity|].
  destruct x; simpl; now rewrite IH.
Qed.

Lemma submissions_alternating (l : list Entry) : submissions (alternating l) = l.
Proof. induction l as [|e l IH]; simpl; [reflexivity|]. now rewrite IH. Qed.

Lemma submissions_syncEntries (submit : Submitter) (l : list Entry) :
  forall s : Store,
    incl (submissions (snd (fst (syncEntries submit l s)))) l.
Proof.
  induction l as [|e l IH]; intros s; simpl; [apply incl_refl|].
  destruct (submit e).
  - specialize (IH (put (set_synced e) s)).
    destruct (syncEntries submit l (put (set_synced e) s)) as [[s' log] o].
    simpl in *. apply incl_cons; [now left|]. now apply incl_tl.
  - simpl. apply incl_cons; [now left|apply incl_nil_l].
Qed.

Lemma onOnline_all_ok (submit : Submitter) (s : Store) :
  store_ok s -> (forall e, submit e = true) ->
  onOnline submit s =
  (map converge s,
   (if (0 <? List.length (getUnsyncedEntries s))%nat
    then [ShowBanner BannerSyncing (Some (List.length (getUnsyncedEntries s)))]
    else [])
   ++ alternating (getUnsyncedEntries s)
   ++ [ShowBanner BannerOnline None; AutoHide 4000],
   Resolved).
Proof.
  intros Hs Hok. unfold onOnline.
  destruct (0 <? List.length (getUnsyncedEntries s))%nat eqn:Hn.
  - rewrite (syncEntries_all_ok submit _ s Hs (unsynced_incl s)
               (unsynced_NoDup s Hs) (fun e _ => Hok e)).
    now rewrite (mark_unsynced s Hs).
  - apply Nat.ltb_ge in Hn.
    assert (Hnil : getUnsyncedEntries s = []).
    { destruct (getUnsyncedEntries s); [reflexivity|simpl in Hn; lia]. }
    rewrite Hnil. simpl. f_equal. f_equal.
    rewrite <- (mark_unsynced s Hs), Hnil. simpl.
    rewrite <- (map_id s) at 1. reflexivity.
Qed.

(** C1: with a remote service that accepts every submission, one pass
    started by the [online] event leaves every record that had
    [synced = false] stored with [synced = true] and its date, mood, note
    and timestamp as they were, leaves the other records alone, and writes
    each entry back before it submits the next one. *)
Theorem sync_convergence :
  forall (submit : Submitter) (s : Store),
    store_ok s ->
    (forall e, submit e = true) ->
    onOnline submit s =
      (map converge (getAll s),
       (if (0 <? List.length (getUnsyncedEntries s))%nat
        then [ShowBanner BannerSyncing
                (Some (List.length (getUnsyncedEntries s)))]
        else [])
       ++ alternating (getUnsyncedEntries s)
       ++ [ShowBanner BannerOnline None; AutoHide 4000],
       Resolved) /\
    getUnsyncedEntries (map converge (getAll s)) = [] /\
    List.length (getAll (map converge (getAll s))) = List.length (getAll s) /\
    (forall e, In e (getAll s) -> synced e = Some (JsBool false) ->
       get (date e) (map converge (getAll s)) =
       Some (mkEntry (date e) (mood e) (note e) (timestamp e)
                     (Some (JsBool true)))).
Proof.
  intros submit s Hs Hok. unfold getAll at 1 3 4 5 6.
  split; [now apply onOnline_all_ok|].
  split; [apply unsynced_converge|].
  split; [apply length_map|].
  intros e He Hf.
  assert (Hc : converge e = mkEntry (date e) (mood e) (note e) (timestamp e)
                              (Some (JsBool true))).
  { unfold converge. now rewrite (proj2 (synced_is_false_iff e) Hf). }
  rewrite <- Hc, <- (date_converge e).
  apply store_ok_In_get.
  - apply store_ok_map; [apply date_converge|exact Hs].
  - now apply in_map.
Qed.

Lemma two_unsynced_ok : store_ok Scenario.two_unsynced.
Proof. repeat constructor. Qed.

Lemma sync_convergence_witness :
  getAll (fst (fst (onOnline simulated_request Scenario.two_unsynced))) =
  [ mkEntry "2024-05-01" 4 "ok" 1714550400000 (Some (JsBool true));
    mkEntry "2024-05-15" 2 "" 1715760000000 (Some (JsBool true)) ].
Proof.
  destruct (sync_convergence simulated_request Scenario.two_unsynced
              two_unsynced_ok (fun _ => eq_refl)) as [H _].
  rewrite H. reflexivity.
Defined.

(** C10: the pass selects a stored record exactly when its [synced]
    property is the boolean [false]; a record whose property is absent,
    [undefined] or anything else is not selected, and nothing is handed to
    the submitter that was not selected. *)
Theorem unsynced_selection_strict :
  forall (submit : Submitter) (s : Store) (e : Entry),
    (In e (getUnsyncedEntries s) <->
     In e (getAll s) /\ synced e = Some (JsBool false)) /\
    (In e (submissions (snd (fst (onOnline submit s)))) ->
     In e (getAll s) /\ synced e = Some (JsBool false)).
Proof.
  intros submit s e.
  assert (Hsel : In e (getUnsyncedEntries s) <->
                 In e (getAll s) /\ synced e = Some (JsBool false)).
  { unfold getUnsyncedEntries. rewrite filter_In.
    now rewrite synced_is_false_iff. }
  split; [exact Hsel|].
  intros Hin. apply Hsel. revert Hin. unfold onOnline.
  destruct (0 <? List.length (getUnsyncedEntries s))%nat.
  - pose proof (submissions_syncEntries submit (getUnsyncedEntries s) s) as Hs.
    destruct (syncEntries submit (getUnsyncedEntries s) s) as [[s' log] o].
    simpl in Hs. destruct o; simpl.
    + rewrite submissions_app. simpl. rewrite app_nil_r. apply Hs.
    + apply Hs.
  - simpl. contradiction.
Qed.

End SyncTheorems.

(** ** The save action *)

Section SaveTheorems.

Import DB NetworkStatus.

Lemma Put_syncEntries (submit : Submitter) (l : list Entry) :
  forall (s : Store) (e : Entry),
    In (Put e) (snd (fst (syncEntries submit l s))) ->
    exists e0, In e0 l /\ submit e0 = true /\ e = set_synced e0.
Proof.
  induction l as [|x l IH]; intros s e; simpl; [contradiction|].
  destruct (submit x) eqn:Hx.
  - specialize (IH (put (set_synced x) s) e).
    destruct (syncEntries submit l (put (set_synced x) s)) as [[s' log] o].
    simpl in *. intros [H|[H|H]]; [discriminate| |].
    + injection H as <-. exists x. auto.
    + destruct (IH H) as [e0 [H0 [H1 H2]]]. exists e0. auto.
  - simpl. intros [H|[]]. discriminate.
Qed.

(** C5, as the source has it: the record written by the save action has
    [synced] equal to [navigator.onLine] at the click, so [false] exactly
    when it was written offline and [true] when it was written online,
    with no submission made; the sync pass writes a record with
    [synced = true] only for an entry whose submission succeeded. *)
Theorem save_flag_is_online_state :
  forall (m : Z) (d n : string) (now : Z) (onLine : bool) (s : Store),
    m <> 0 ->
    get d (fst (UI.save (Some m) d n now onLine s)) =
      Some (mkEntry d m (Js.trim n) now (Some (JsBool onLine))) /\
    (forall (submit : Submitter) (l : list Entry) (s0 : Store) (e : Entry),
       In (Put e) (snd (fst (syncEntries submit l s0))) ->
       exists e0, In e0 l /\ submit e0 = true /\ e = set_synced e0).
Proof.
  intros m d n now onLine s Hm. split.
  - unfold UI.save. apply Z.eqb_neq in Hm. rewrite Hm. simpl.
    apply (get_put_same (mkEntry d m (Js.trim n) now (Some (JsBool onLine)))).
  - intros submit l s0 e. apply Put_syncEntries.
Qed.

Lemma save_flag_is_online_state_witness :
  get "2024-05-01" (fst (UI.save (Some 4) "2024-05-01" " ok " 1714550400000
                           false [])) =
  Some (mkEntry "2024-05-01" 4 "ok" 1714550400000 (Some (JsBool false))).
Proof.
  apply (proj1 (save_flag_is_online_state 4 "2024-05-01" " ok " 1714550400000
                  false [] ltac:(discriminate))).
Defined.

(** C5 fails as stated: a save made while the browser is online stores the
    record with [synced = true], and the save action talks to no remote
    service. *)
Lemma save_online_marks_synced :
  UI.save (Some 4) "2024-05-01" "ok" 1714550400000 true [] =
    ([mkEntry "2024-05-01" 4 "ok" 1714550400000 (Some (JsBool true))],
     Some (mkEntry "2024-05-01" 4 "ok" 1714550400000 (Some (JsBool true)),
           UI.Saved)) /\
  get "2024-05-01"
    (fst (UI.save (Some 4) "2024-05-01" "ok" 1714550400000 true [])) <>
  Some (mkEntry "2024-05-01" 4 "ok" 1714550400000 (Some (JsBool false))).
Proof. split; [reflexivity|discriminate]. Qed.

End SaveTheorems.

(** ** Connectivity events, one [await] at a time *)

Section TaskTheorems.

Import DB NetworkStatus.

Lemma run_app (submit : Submitter) (p : Page) (a b : list Event) :
  run submit p (a ++ b) = run submit (run submit p a) b.
Proof. apply fold_left_app. Qed.

(** The loop of one task, left alone, does what [syncEntries] does. *)
Lemma loop_agrees (submit : Submitter) (l : list Entry) :
  forall (e : Entry) (s : Store) (tr : list Effect) (count : nat),
  exists k,
    run submit (mkPage s [AwaitSubmit e l count] (tr ++ [Submit e]))
        (repeat (Settled 0) k) =
    let '(s', log, o) := syncEntries submit (e :: l) s in
    mkPage s' [Done o] (tr ++ log ++ trailer o).
Proof.
  induction l as [|e2 l IH]; intros e s tr count.
  - destruct (submit e) eqn:He.
    + exists 2%nat. simpl. rewrite He. simpl.
      now rewrite <- !app_assoc.
    + exists 1%nat. simpl. rewrite He. simpl.
      now rewrite <- !app_assoc.
  - destruct (submit e) eqn:He.
    + destruct (IH e2 (put (set_synced e) s)
                  (tr ++ [Submit e; Put (set_synced e)]) count) as [k Hk].
      exists (2 + k)%nat.
      change (repeat (Settled 0) (2 + k))
        with ([Settled 0; Settled 0] ++ repeat (Settled 0) k).
      rewrite run_app.
      replace (run submit
                 (mkPage s [AwaitSubmit e (e2 :: l) count] (tr ++ [Submit e]))
                 [Settled 0; Settled 0])
        with (mkPage (put (set_synced e) s) [AwaitSubmit e2 l count]
                ((tr ++ [Submit e; Put (set_synced e)]) ++ [Submit e2])).
      * rewrite Hk.
        change (syncEntries submit (e :: e2 :: l) s)
          with (if submit e
                then let '(s', log, o) :=
                       syncEntries submit (e2 :: l) (put (set_synced e) s) in
                     (s', Submit e :: Put (set_synced e) :: log, o)
                else (s, [Submit e], Rejected)).
        rewrite He.
        destruct (syncEntries submit (e2 :: l) (put (set_synced e) s))
          as [[s' log] o].
        now rewrite <- !app_assoc.
      * simpl. rewrite He. simpl. now rewrite <- !app_assoc.
    + exists 1%nat. simpl. rewrite He. simpl.
      now rewrite <- !app_assoc.
Qed.

(** A single [online] event whose task is resumed until it ends does what
    [onOnline] does: same store, same effects in the same order, same
    outcome. *)
Lemma task_agrees (submit : Submitter) (s : Store) :
  exists k,
    run submit (mkPage s [] []) (Online :: repeat (Settled 0) k) =
    let '(s', log, o) := onOnline submit s in mkPage s' [Done o] log.
Proof.
  unfold onOnline.
  destruct (getUnsyncedEntries s) as [|e l] eqn:Hun.
  - exists 1%nat. simpl. unfold getUnsyncedEntries in Hun.
    now rewrite Hun.
  - destruct (loop_agrees submit l e s
                [ShowBanner BannerSyncing (Some (List.length (e :: l)))]
                (List.length (e :: l))) as [k Hk].
    exists (1 + k)%nat.
    change (Online :: repeat (Settled 0) (1 + k))
      with ([Online; Settled 0] ++ repeat (Settled 0) k).
    rewrite run_app.
    replace (run submit (mkPage s [] []) [Online; Settled 0])
      with (mkPage s [AwaitSubmit e l (List.length (e :: l))]
              ([ShowBanner BannerSyncing (Some (List.length (e :: l)))]
                 ++ [Submit e])).
    + rewrite Hk.
      replace (0 <? List.length (e :: l))%nat with true by reflexivity.
      destruct (syncEntries submit (e :: l) s) as [[s' log] o].
      destruct o; simpl; [reflexivity|now rewrite app_nil_r].
    + simpl. unfold getUnsyncedEntries in Hun. rewrite Hun. reflexivity.
Qed.

Lemma resume_nth_last (submit : Submitter) (s : Store) (t : Task) (ts : list Task) :
  resume_nth submit s (List.length ts) (ts ++ [t]) =
  let '(s', t', log) := resume submit s t in (s', ts ++ [t'], log).
Proof.
  induction ts as [|x ts IH]; simpl.
  - now destruct (resume submit s t) as [[s' t'] log].
  - rewrite IH. now destruct (resume submit s t) as [[s' t'] log].
Qed.

(** C3, as the source has it: [onOnline] keeps no record of a pass in
    flight, so every [online] event that finds an unsynced record starts a
    pass of its own, next to the passes already in flight. *)
Theorem online_event_starts_new_pass :
  forall (submit : Submitter) (p : Page),
    getUnsyncedEntries (store p) <> [] ->
    passes_in_flight
      (run submit p [Online; Settled (List.length (tasks p))]) =
    S (passes_in_flight p).
Proof.
  intros submit p Hun. unfold run, passes_in_flight. simpl.
  rewrite resume_nth_last. simpl. unfold getUnsyncedEntries in Hun.
  destruct (filter synced_is_false (getAll (store p))) as [|e l] eqn:Hf;
    [congruence|].
  simpl. rewrite filter_app, length_app. simpl. lia.
Qed.

Lemma online_event_starts_new_pass_witness :
  passes_in_flight
    (run simulated_request
       (mkPage Scenario.two_unsynced [AwaitSubmit Scenario.may01 [Scenario.may15] 2] [])
       [Online; Settled 1]) = 2%nat.
Proof.
  apply (online_event_starts_new_pass simulated_request
           (mkPage Scenario.two_unsynced
              [AwaitSubmit Scenario.may01 [Scenario.may15] 2] [])).
  discriminate.
Defined.

(** C3 fails as stated: the connection comes back, drops and comes back
    again while the first pass awaits its submission; two passes are then
    in flight, and both submit the same record. *)
Lemma connectivity_flap_two_passes :
  passes_in_flight
    (run simulated_request (mkPage [Scenario.may01] [] [])
       [Online; Settled 0; Offline; Online; Settled 1]) = 2%nat /\
  submissions
    (trace (run simulated_request (mkPage [Scenario.may01] [] [])
              [Online; Settled 0; Offline; Online; Settled 1]))
    = [Scenario.may01; Scenario.may01].
Proof. split; reflexivity. Qed.

End TaskTheorems.

(** ** Months *)

Section MonthTheorems.

(** A digit converts to its value and is not the separator. *)
Lemma digit_of_is_digit (c : ascii) :
  is_digit c = true -> Js.digit_of c = Some (Z.of_N (N_of_ascii c) - 48).
Proof.
  unfold is_digit, Js.digit_of. intros H.
  apply andb_true_iff in H. destruct H as [H1 H2].
  apply N.leb_le in H1. apply N.leb_le in H2.
  replace (48 <=? Z.of_N (N_of_ascii c)) with true by (symmetry; apply Z.leb_le; lia).
  replace (Z.of_N (N_of_ascii c) <=? 57) with true by (symmetry; apply Z.leb_le; lia).
  reflexivity.
Qed.

Lemma digit_not_dash (c : ascii) : is_digit c = true -> Ascii.eqb c "-" = false.
Proof.
  intros H. apply Ascii.eqb_neq. intros ->. discriminate H.
Qed.

(** On an ISO date the test of [getByMonth] reads the year from the first
    part and the month from the second. *)
Lemma in_month_iso (y m : Z) (e : Entry) :
  iso_date (date e) = true ->
  DB.in_month y m e = (year_of (date e) =? y) && (month_of (date e) =? m + 1).
Proof.
  unfold DB.in_month, year_of, month_of. generalize (date e) as d. clear e.
  intros d H.
  destruct d as [|c0 [|c1 [|c2 [|c3 [|c4 [|c5 [|c6 [|c7 [|c8 [|c9 [|c10 r]]]]]]]]]]];
    try (cbn in H; discriminate).
  unfold iso_date in H. cbn in H.
  repeat rewrite andb_true_iff in H.
  repeat match goal with Hc : _ /\ _ |- _ => destruct Hc end.
  destruct (c4 =? "-")%char eqn:E4; [|discriminate].
  destruct (c7 =? "-")%char eqn:E7; [|discriminate].
  cbn [Js.split].
  repeat match goal with
         | Hd : is_digit ?c = true |- context [(?c =? "-")%char] =>
             rewrite (digit_not_dash c Hd)
         end.
  rewrite E4, E7.
  cbn [map nth_error substring]. unfold Js.Number, decimal.
  cbn [Js.digits_from decimal_from].
  rewrite !digit_of_is_digit by assumption.
  reflexivity.
Qed.

(** C7, as the source has it: [month] is a month index counted from 0, as
    [Date.prototype.getMonth] gives it; over ISO dates [getByMonth] returns
    exactly the records of the year [y] and of the calendar month [m + 1],
    in store order. *)
Theorem getByMonth_zero_based_month :
  forall (s : DB.Store) (y m : Z),
    (forall e, In e (DB.getAll s) -> iso_date (date e) = true) ->
    DB.getByMonth y m s =
      filter (fun e => (year_of (date e) =? y) && (month_of (date e) =? m + 1))
             (DB.getAll s) /\
    (forall e, In e (DB.getByMonth y m s) <->
               In e (DB.getAll s) /\
               year_of (date e) = y /\ month_of (date e) = m + 1).
Proof.
  intros s y m Hiso.
  assert (Heq : DB.getByMonth y m s =
                filter (fun e => (year_of (date e) =? y)
                                 && (month_of (date e) =? m + 1))
                       (DB.getAll s)).
  { unfold DB.getByMonth. apply filter_ext_in.
    intros e He. apply in_month_iso. now apply Hiso. }
  split; [exact Heq|].
  intros e. rewrite Heq, filter_In, andb_true_iff, !Z.eqb_eq. tauto.
Qed.

Lemma getByMonth_zero_based_month_witness :
  DB.getByMonth 2024 4 Scenario.three_unsynced =
  [Scenario.may01; Scenario.may15; Scenario.may20].
Proof.
  rewrite (proj1 (getByMonth_zero_based_month Scenario.three_unsynced 2024 4
                    ltac:(intros e [<-|[<-|[<-|[]]]]; reflexivity))).
  reflexivity.
Defined.

(** C7 fails as stated: asked for year 2024 and month 5, [getByMonth]
    leaves out the record of 1 May 2024, whose date is in year 2024 and
    month 5; it returns that record when asked for month 4. *)
Lemma getByMonth_may_is_month_4 :
  iso_date "2024-05-01" = true /\
  year_of "2024-05-01" = 2024 /\
  month_of "2024-05-01" = 5 /\
  DB.getByMonth 2024 5 [Scenario.may01] = [] /\
  DB.getByMonth 2024 4 [Scenario.may01] = [Scenario.may01].
Proof. repeat split. Qed.

End MonthTheorems.

(** ** The service worker *)

Section WorkerFacts.

Import SW.

Lemma cache_match_put_same (u : string) (r : Response) (c : Cache) :
  cache_match u (cache_put u r c) = Some r.
Proof.
  induction c as [|[k v] c IH]; simpl.
  - now rewrite String.eqb_refl.
  - destruct (k =? u)%string eqn:Hk; simpl; now rewrite Hk.
Qed.

Lemma cache_match_put_other (u v : string) (r : Response) (c : Cache) :
  u <> v -> cache_match u (cache_put v r c) = cache_match u c.
Proof.
  intros Huv. induction c as [|[k x] c IH]; simpl.
  - apply String.eqb_neq in Huv. now rewrite String.eqb_sym, Huv.
  - destruct (k =? v)%string eqn:Hk; simpl.
    + apply String.eqb_eq in Hk. subst k.
      apply String.eqb_neq in Huv. now rewrite String.eqb_sym, Huv.
    + destruct (k =? u)%string; [reflexivity|exact IH].
Qed.

(** A response stored for a request that matched nowhere is what the
    request matches afterwards. *)
Lemma caches_match_put_fresh (name u : string) (r : Response) (cs : CacheStorage) :
  caches_match u cs = None -> caches_match u (caches_put name u r cs) = Some r.
Proof.
  induction cs as [|[n c] cs IH]; simpl; intros H.
  - now rewrite String.eqb_refl.
  - destruct (cache_match u c) eqn:Hc; [discriminate|].
    destruct (n =? name)%string; simpl.
    + now rewrite cache_match_put_same.
    + rewrite Hc. now apply IH.
Qed.

(** A response of status 200 is never one [cache.put] refuses. *)
Lemma try_put_when_200 (name u : string) (r : Response) (cs : CacheStorage)
    (b : bool) :
  (if (status r =? 200) && b then caches_try_put name u r cs else cs) =
  (if (status r =? 200) && b then caches_put name u r cs else cs).
Proof.
  destruct (Z.eqb_spec (status r) 200) as [H|H]; [|reflexivity].
  destruct b; [|reflexivity].
  unfold caches_try_put, partial. now rewrite H.
Qed.

(** C9: a request that is not a navigation is answered from the cache when
    it matches there, without a fetch; otherwise the network's response is
    returned, and it is stored in the cache exactly when its status is 200
    and its type is [basic], that is same-origin. *)
Theorem cache_first_for_other_requests :
  forall (net : Network) (cs : CacheStorage) (request : Request),
    mode request <> ModeNavigate ->
    (forall cached,
       caches_match (url request) cs = Some cached ->
       on_fetch net cs request =
         {| result := Responded cached; caches_after := cs; fetched := [] |}) /\
    (forall response,
       caches_match (url request) cs = None ->
       net (url request) = Some response ->
       let stored := (status response =? 200)
                     && match type response with
                        | TypeBasic => true
                        | _ => false
                        end in
       on_fetch net cs request =
         {| result := Responded response;
            caches_after :=
              if stored
              then caches_put CACHE_NAME (url request) response cs
              else cs;
            fetched := [url request] |} /\
       caches_match (url request) (caches_after (on_fetch net cs request)) =
         (if stored then Some response else None)).
Proof.
  intros net cs request Hmode. split.
  - intros cached Hc. unfold on_fetch.
    destruct (mode request); try congruence; now rewrite Hc.
  - intros response Hc Hnet stored.
    assert (Hrun : on_fetch net cs request =
                   {| result := Responded response;
                      caches_after :=
                        if stored
                        then caches_put CACHE_NAME (url request) response cs
                        else cs;
                      fetched := [url request] |}).
    { unfold on_fetch.
      destruct (mode request); try congruence;
        now rewrite Hc, Hnet, try_put_when_200. }
    split; [exact Hrun|].
    rewrite Hrun. simpl. destruct stored; [|exact Hc].
    now apply caches_match_put_fresh.
Qed.


Lemma cache_first_for_other_requests_witness :
  on_fetch Scenario.reachable [] (mkRequest "./data.json" ModeCors) =
    {| result := Responded (mkResponse 200 TypeBasic "./data.json");
       caches_after :=
         [(CACHE_NAME, [("./data.json", mkResponse 200 TypeBasic "./data.json")])];
       fetched := ["./data.json"] |}.
Proof.
  apply (proj2 (cache_first_for_other_requests Scenario.reachable []
                  (mkRequest "./data.json" ModeCors) ltac:(discriminate))
           (mkResponse 200 TypeBasic "./data.json") eq_refl eq_refl).
Defined.

Lemma caches_match_put_some (name u v : string) (r : Response) (cs : CacheStorage) :
  caches_match u cs <> None -> caches_match u (caches_put name v r cs) <> None.
Proof.
  induction cs as [|[n c] cs IH]; simpl; [congruence|].
  intros H. destruct (n =? name)%string; simpl.
  - destruct (String.eqb_spec u v) as [->|Huv].
    + now rewrite cache_match_put_same.
    + rewrite (cache_match_put_other u v r c Huv).
      destruct (cache_match u c); [congruence|exact H].
  - destruct (cache_match u c); [congruence|]. now apply IH.
Qed.

Lemma caches_match_try_put_some (name u v : string) (r : Response)
    (cs : CacheStorage) :
  caches_match u cs <> None ->
  caches_match u (caches_try_put name v r cs) <> None.
Proof.
  intros H. unfold caches_try_put.
  destruct (partial r); [exact H|now apply caches_match_put_some].
Qed.

(** Handling a fetch never removes a document from the cache. *)
Lemma on_fetch_keeps (net : Network) (cs : CacheStorage) (request : Request)
    (u : string) :
  caches_match u cs <> None ->
  caches_match u (caches_after (on_fetch net cs request)) <> None.
Proof.
  intros H. unfold on_fetch.
  destruct (mode request);
    repeat match goal with
           | |- context [match ?x with _ => _ end] => destruct x; simpl
           end;
    try exact H; now apply caches_match_try_put_some.
Qed.

Lemma serve_keeps (reqs : list (Network * Request)) :
  forall (cs : CacheStorage) (u : string),
    caches_match u cs <> None -> caches_match u (serve cs reqs) <> None.
Proof.
  induction reqs as [|[net request] reqs IH]; intros cs u H; [exact H|].
  apply IH. now apply on_fetch_keeps.
Qed.

Lemma fetch_all_In (net : Network) (urls : list string) :
  forall rs, fetch_all net urls = Some rs ->
    map fst rs = urls /\ (forall u r, In (u, r) rs -> net u = Some r).
Proof.
  induction urls as [|u urls IH]; simpl; intros rs H.
  - injection H as <-. split; [reflexivity|contradiction].
  - destruct (net u) as [r|] eqn:Hu; [|discriminate].
    destruct (addable r); [|discriminate].
    destruct (fetch_all net urls) as [rs'|]; [|discriminate].
    injection H as <-. destruct (IH rs' eq_refl) as [Hm Hn].
    split; [simpl; now rewrite Hm|].
    intros v x [Hvx|Hvx]; [congruence|now apply Hn].
Qed.

Lemma caches_get_put (name u : string) (r : Response) (cs : CacheStorage) :
  caches_get name (caches_put name u r cs) =
  Some (cache_put u r (match caches_get name cs with
                       | Some c => c
                       | None => []
                       end)).
Proof.
  induction cs as [|[n c] cs IH]; simpl.
  - now rewrite String.eqb_refl.
  - destruct (n =? name)%string eqn:Hn; simpl; rewrite Hn; [reflexivity|exact IH].
Qed.

Lemma caches_get_open (name : string) (cs : CacheStorage) :
  caches_get name (caches_open name cs) <> None.
Proof.
  induction cs as [|[n c] cs IH]; simpl.
  - now rewrite String.eqb_refl.
  - destruct (n =? name)%string eqn:Hn; simpl; rewrite Hn; [congruence|exact IH].
Qed.

(** What [addAll] leaves in the cache object it filled. *)
Lemma precache_get (net : Network) (name : string)
    (rs : list (string * Response)) :
  (forall u r, In (u, r) rs -> net u = Some r) ->
  forall (cs : CacheStorage) (u : string),
    In u (map fst rs) ->
    exists c,
      caches_get name
        (fold_left (fun acc ur => caches_put name (fst ur) (snd ur) acc) rs cs)
        = Some c /\
      cache_match u c = net u.
Proof.
  intros Hnet.
  assert (Hgen : forall (l : list (string * Response)) (cs : CacheStorage)
                        (u : string),
             incl l rs ->
             (In u (map fst l) \/
              exists c0, caches_get name cs = Some c0 /\ cache_match u c0 = net u) ->
             exists c,
               caches_get name
                 (fold_left (fun acc ur => caches_put name (fst ur) (snd ur) acc)
                            l cs) = Some c /\
               cache_match u c = net u).
  { induction l as [|[v x] l IH]; intros cs u Hl H; simpl.
    - destruct H as [[]|H]. exact H.
    - apply IH; [intros y Hy; apply Hl; now right|].
      destruct (in_dec string_dec u (map fst l)) as [Hin|Hnin]; [now left|].
      right. rewrite caches_get_put. eexists. split; [reflexivity|].
      destruct (string_dec u v) as [->|Huv].
      + rewrite cache_match_put_same. symmetry. apply Hnet, Hl. now left.
      + rewrite (cache_match_put_other u v x _ Huv).
        destruct H as [[H|H]|[c0 [H0 H1]]]; simpl in *.
        * congruence.
        * contradiction.
        * now rewrite H0. }
  intros cs u Hu. apply Hgen; [apply incl_refl|now left].
Qed.

Lemma fold_delete (stale : list string) :
  forall cs : CacheStorage,
    fold_left (fun acc k => caches_delete k acc) stale cs =
    filter (fun nc => negb (existsb (String.eqb (fst nc)) stale)) cs.
Proof.
  induction stale as [|k stale IH]; intros cs; simpl.
  - symmetry. apply filter_true.
  - rewrite IH. unfold caches_delete.
    induction cs as [|[n c] cs IHcs]; simpl; [reflexivity|].
    destruct (n =? k)%string; simpl; [exact IHcs|].
    destruct (existsb (String.eqb n) stale); simpl; [exact IHcs|].
    now rewrite IHcs.
Qed.

(** Activation keeps the cache objects named [CACHE_NAME] and no other. *)
Lemma on_activate_caches (w : Worker) :
  caches (on_activate w) =
  filter (fun nc => (fst nc =? CACHE_NAME)%string) (caches w).
Proof.
  unfold on_activate. simpl. rewrite fold_delete.
  apply filter_ext_in. intros [n c] Hin. simpl.
  destruct (n =? CACHE_NAME)%string eqn:Hn.
  - apply negb_true_iff.
    destruct (existsb (String.eqb n) _) eqn:He; [|reflexivity].
    apply existsb_exists in He. destruct He as [k [Hk Hnk]].
    apply filter_In in Hk. destruct Hk as [_ Hk].
    apply String.eqb_eq in Hnk. subst k. rewrite Hn in Hk. discriminate.
  - apply negb_false_iff. apply existsb_exists. exists n. split.
    + apply filter_In. split; [|now rewrite Hn].
      apply in_map_iff. now exists (n, c).
    + apply String.eqb_refl.
Qed.

Lemma caches_match_kept (name u : string) (r : Response) (cs : CacheStorage) :
  forall c, caches_get name cs = Some c -> cache_match u c = Some r ->
    caches_match u (filter (fun nc => (fst nc =? name)%string) cs) = Some r.
Proof.
  induction cs as [|[n c0] cs IH]; simpl; intros c Hg Hm; [discriminate|].
  destruct (n =? name)%string; simpl.
  - injection Hg as ->. now rewrite Hm.
  - now apply (IH c).
Qed.

(** The [install] event of a new generation, by what the precache gave. *)
Lemma install_event_fulfilled (net : Network) (cs0 : CacheStorage)
    (older : bool) (rs : list (string * Response)) :
  fetch_all net ASSETS = Some rs ->
  install_event net (new_generation cs0 older) =
  {| worker :=
       on_activate
         {| caches :=
              fold_left
                (fun acc ur => caches_put CACHE_NAME (fst ur) (snd ur) acc)
                rs (caches_open CACHE_NAME cs0);
            skipWaiting := true; claimed := false |};
     phase := Active; older_active := false |}.
Proof.
  intros H. unfold install_event, new_generation, on_install.
  cbn [phase worker caches skipWaiting claimed older_active].
  rewrite H. reflexivity.
Qed.

Lemma install_event_failed (net : Network) (cs0 : CacheStorage) (older : bool) :
  fetch_all net ASSETS = None ->
  install_event net (new_generation cs0 older) =
  {| worker := {| caches := caches_open CACHE_NAME cs0;
                  skipWaiting := false; claimed := false |};
     phase := Redundant; older_active := older |}.
Proof.
  intros H. unfold install_event, new_generation, on_install.
  cbn [phase worker caches skipWaiting claimed older_active].
  rewrite H. reflexivity.
Qed.

(** A generation that reached [Active] through its [install] event serves
    from a cache that holds the app shell the network gave at install. *)
Lemma installed_shell_cached (net0 : Network) (cs0 : CacheStorage) (older : bool) :
  phase (install_event net0 (new_generation cs0 older)) = Active ->
  exists doc,
    net0 "./index.html" = Some doc /\
    caches_match "./index.html"
      (caches (worker (install_event net0 (new_generation cs0 older))))
      = Some doc.
Proof.
  destruct (fetch_all net0 ASSETS) as [rs|] eqn:Hf.
  2:{ rewrite (install_event_failed net0 cs0 older Hf). discriminate. }
  rewrite (install_event_fulfilled net0 cs0 older rs Hf). intros _.
  destruct (fetch_all_In net0 ASSETS rs Hf) as [Hm Hn].
  assert (Hin : In "./index.html" (map fst rs)) by (rewrite Hm; simpl; tauto).
  destruct (precache_get net0 CACHE_NAME rs Hn (caches_open CACHE_NAME cs0)
              "./index.html" Hin) as [c [Hc Hd]].
  apply in_map_iff in Hin. destruct Hin as [[u doc] [Hu Hin]].
  simpl in Hu. subst u. pose proof (Hn _ _ Hin) as Hdoc.
  exists doc. split; [exact Hdoc|].
  cbn [worker]. rewrite on_activate_caches. cbn [caches].
  apply (caches_match_kept CACHE_NAME "./index.html" doc _ c Hc).
  now rewrite Hd.
Qed.

(** C8: a navigation whose fetch fails is answered with the cached
    [./index.html] and the failure goes no further; for a generation this
    script installed and activated, whatever fetches it has served since,
    that document is there. *)
Theorem offline_navigation_fallback :
  forall (net : Network) (request : Request),
    mode request = ModeNavigate ->
    net (url request) = None ->
    (forall (cs : CacheStorage) (doc : Response),
       caches_match "./index.html" cs = Some doc ->
       on_fetch net cs request =
         {| result := Responded doc; caches_after := cs;
            fetched := [url request] |}) /\
    (forall (net0 : Network) (cs0 : CacheStorage) (older : bool)
            (reqs : list (Network * Request)),
       phase (install_event net0 (new_generation cs0 older)) = Active ->
       exists doc,
         result (on_fetch net
                   (serve (caches (worker (install_event net0
                                             (new_generation cs0 older))))
                          reqs)
                   request) = Responded doc).
Proof.
  intros net request Hmode Hnet. split.
  - intros cs doc Hdoc. unfold on_fetch. now rewrite Hmode, Hnet, Hdoc.
  - intros net0 cs0 older reqs Hact.
    destruct (installed_shell_cached net0 cs0 older Hact) as [doc [_ Hdoc]].
    assert (H : caches_match "./index.html"
                  (serve (caches (worker (install_event net0
                                            (new_generation cs0 older))))
                         reqs) <> None).
    { apply serve_keeps. congruence. }
    unfold on_fetch. rewrite Hmode, Hnet. cbn [result].
    destruct (caches_match "./index.html" (serve _ reqs)) as [d|];
      [|congruence].
    now exists d.
Qed.


Lemma offline_navigation_fallback_witness :
  on_fetch Scenario.unreachable
    (caches (worker (install_event Scenario.reachable (new_generation [] false))))
    (mkRequest "./history" ModeNavigate) =
  {| result := Responded (mkResponse 200 TypeBasic "./index.html");
     caches_after :=
       caches (worker (install_event Scenario.reachable (new_generation [] false)));
     fetched := ["./history"] |}.
Proof.
  apply (proj1 (offline_navigation_fallback Scenario.unreachable
                  (mkRequest "./history" ModeNavigate) eq_refl eq_refl)).
  reflexivity.
Defined.

(** C4, as the source has it: the [install] listener calls [skipWaiting]
    itself once the precache is stored, so a generation whose install
    succeeds becomes [Active] at once, next to an older active generation
    or not, and no message is needed.  The message [skipWaiting] activates
    a waiting generation as well; any other message leaves it waiting. *)
Theorem install_activates_without_message :
  forall (net : Network) (cs : CacheStorage) (older : bool)
         (rs : list (string * Response)),
    fetch_all net ASSETS = Some rs ->
    phase (install_event net (new_generation cs older)) = Active /\
    skipWaiting (worker (install_event net (new_generation cs older))) = true /\
    (forall (w : Worker) (older' : bool),
       phase (message_event (JsStr "skipWaiting")
                (mkGeneration w Waiting older')) = Active) /\
    (forall (data : JsVal) (w : Worker),
       data <> JsStr "skipWaiting" ->
       skipWaiting w = false ->
       message_event data (mkGeneration w Waiting true) =
       mkGeneration w Waiting true).
Proof.
  intros net cs older rs Hf.
  rewrite (install_event_fulfilled net cs older rs Hf).
  repeat split.
  - intros data w Hdata Hw. unfold message_event, on_message. simpl.
    assert (Hsame : match data with
                    | JsStr s =>
                        if (s =? "skipWaiting")%string
                        then {| caches := caches w; skipWaiting := true;
                                claimed := claimed w |}
                        else w
                    | _ => w
                    end = w).
    { destruct data as [| | | |s]; try reflexivity.
      destruct (String.eqb_spec s "skipWaiting") as [->|Hs];
        [congruence|reflexivity]. }
    rewrite Hsame. unfold try_activate. simpl. now rewrite Hw.
Qed.

Lemma install_activates_without_message_witness :
  phase (install_event Scenario.reachable (new_generation [] true)) = Active.
Proof.
  apply (install_activates_without_message Scenario.reachable [] true _ eq_refl).
Defined.

(** C4 fails as stated: with an older generation active, the new one is
    installed over a reachable network and is [Active] before the page has
    sent anything; a message other than [skipWaiting] changes nothing. *)
Lemma new_generation_active_unasked :
  phase (steps (new_generation [] true) [Install Scenario.reachable]) = Active /\
  phase (steps (new_generation [] true)
           [Install Scenario.reachable; Message (JsStr "hello")]) = Active.
Proof. split; reflexivity. Qed.

End WorkerFacts.

(** ** More on the object store *)

Section StoreExtras.

Import DB.

Lemma delete_Forall (P : Entry -> Prop) (d : string) (s : Store) :
  Forall P s -> Forall P (delete d s).
Proof.
  induction 1 as [|x r Hx Hr IH]; simpl; [constructor|].
  destruct (d =? date x)%string; [exact Hr|now constructor].
Qed.

Lemma delete_ok (d : string) (s : Store) : store_ok s -> store_ok (delete d s).
Proof.
  induction s as [|x r IH]; intros Hs; simpl; [exact Hs|].
  apply store_ok_inv in Hs. destruct Hs as [Hr Hx].
  destruct (d =? date x)%string; [exact Hr|].
  constructor; [exact (IH Hr)|now apply delete_Forall].
Qed.

Lemma replay_ok_from (ws : list Write) :
  forall s, store_ok s -> store_ok (fold_left apply_write ws s).
Proof.
  induction ws as [|w ws IH]; intros s Hs; [exact Hs|].
  simpl. apply IH. destruct w; [now apply put_ok|now apply delete_ok].
Qed.

(** X1: whatever sequence of [put] and [delete] requests the store has
    served since it was created, it holds its records in ascending key
    order with no date twice. *)
Theorem store_one_record_per_date :
  forall ws : list Write,
    store_ok (replay ws) /\ NoDup (map date (getAll (replay ws))).
Proof.
  intros ws.
  assert (H : store_ok (replay ws)) by (apply replay_ok_from; constructor).
  split; [exact H|now apply store_ok_NoDup].
Qed.

Lemma In_iff_get (s : Store) (x : Entry) :
  store_ok s -> (In x s <-> get (date x) s = Some x).
Proof.
  intros Hs. split; [now apply store_ok_In_get|].
  intros H. now apply get_In in H.
Qed.

Lemma get_none_iff (d : string) (s : Store) :
  get d s = None <-> (forall x, In x s -> date x <> d).
Proof.
  induction s as [|y r IH]; simpl.
  - split; [intros _ x []|reflexivity].
  - destruct (String.eqb_spec d (date y)) as [Hd|Hd].
    + split; [discriminate|].
      intros H. exfalso. apply (H y); auto.
    + rewrite IH. split.
      * intros H x [<-|Hx]; [congruence|now apply H].
      * intros H x Hx. apply H. now right.
Qed.

(** X2: [put] is an upsert.  Afterwards the store holds the record written
    and every record it held under another date, and nothing else; it has
    one record more when the date was new and as many as before when the
    date was there. *)
Theorem put_is_upsert :
  forall (e : Entry) (s : Store),
    store_ok s ->
    (forall x, In x (getAll (put e s)) <->
               x = e \/ (In x (getAll s) /\ date x <> date e)) /\
    List.length (getAll (put e s)) =
      match get (date e) s with
      | Some _ => List.length (getAll s)
      | None => S (List.length (getAll s))
      end.
Proof.
  intros e s Hs. unfold getAll. split.
  - intros x. rewrite (In_iff_get (put e s) x (put_ok e s Hs)).
    destruct (String.eqb_spec (date x) (date e)) as [Hd|Hd].
    + rewrite Hd, get_put_same. split.
      * intros [= ->]. now left.
      * intros [->|[_ H]]; [reflexivity|contradiction].
    + rewrite (get_put_other _ e s Hd), <- (In_iff_get s x Hs). split.
      * intros H. right. auto.
      * intros [->|[H _]]; [contradiction|exact H].
  - induction s as [|y r IH]; [reflexivity|].
    apply store_ok_inv in Hs. destruct Hs as [Hr Hy]. simpl.
    destruct (String.compare (date e) (date y)) eqn:Hc.
    + apply String.compare_eq_iff in Hc. now rewrite Hc, String.eqb_refl.
    + rewrite String.eqb_sym, (key_lt_neq _ _ Hc).
      assert (Hn : get (date e) r = None).
      { apply get_none_iff. intros x Hx Hd.
        rewrite Forall_forall in Hy. specialize (Hy x Hx). rewrite Hd in Hy.
        exact (key_lt_asym _ _ Hc Hy). }
      now rewrite Hn.
    + apply compare_gt_lt in Hc.
      rewrite (key_lt_neq _ _ Hc). simpl.
      rewrite (IH Hr). now destruct (get (date e) r).
Qed.

Lemma put_is_upsert_witness :
  List.length (getAll (put Scenario.may15 [Scenario.may01; Scenario.may20]))
    = 3%nat /\
  List.length (getAll (put (set_synced Scenario.may15) Scenario.three_unsynced))
    = 3%nat.
Proof.
  split.
  - rewrite (proj2 (put_is_upsert Scenario.may15
                      [Scenario.may01; Scenario.may20]
                      ltac:(repeat constructor))).
    reflexivity.
  - rewrite (proj2 (put_is_upsert (set_synced Scenario.may15)
                      Scenario.three_unsynced ltac:(repeat constructor))).
    reflexivity.
Defined.

(** X3: [get] answers a missing key with [undefined] and nothing else:
    the result is [None] exactly when no stored record has that date, and
    a record it returns is a stored record of that date. *)
Theorem get_missing_key :
  forall (d : string) (s : Store),
    (get d s = None <-> (forall x, In x (getAll s) -> date x <> d)) /\
    (forall x, get d s = Some x -> In x (getAll s) /\ date x = d).
Proof.
  intros d s. split; [apply get_none_iff|apply get_In].
Qed.

(** X4: [delete] removes the record of the given date and no other; the
    date then reads as missing; deleting a date that is not there, or
    deleting a second time, changes nothing. *)
Theorem delete_removes_one_date :
  forall (d : string) (s : Store),
    store_ok s ->
    (forall x, In x (getAll (delete d s)) <-> In x (getAll s) /\ date x <> d) /\
    get d (delete d s) = None /\
    delete d (delete d s) = delete d s /\
    (get d s = None -> delete d s = s).
Proof.
  intros d s Hs. unfold getAll.
  assert (Hgone : get d (delete d s) = None) by now apply get_delete_same.
  split; [|split; [exact Hgone|split; [now apply delete_absent|apply delete_absent]]].
  intros x. rewrite (In_iff_get _ x (delete_ok d s Hs)), (In_iff_get s x Hs).
  destruct (String.eqb_spec (date x) d) as [Hd|Hd].
  - rewrite Hd, Hgone. split; [discriminate|tauto].
  - rewrite (get_delete_other d (date x) s Hd). tauto.
Qed.

Lemma delete_removes_one_date_witness :
  getAll (delete "2024-05-01" Scenario.two_unsynced) = [Scenario.may15] /\
  get "2024-05-01" (delete "2024-05-01" Scenario.two_unsynced) = None.
Proof.
  split; [reflexivity|].
  apply (delete_removes_one_date "2024-05-01" Scenario.two_unsynced
           ltac:(repeat constructor)).
Defined.

End StoreExtras.

(** ** More on the sync pass *)

Section SyncExtras.

Import DB NetworkStatus.

Variable submit : Submitter.

Lemma mark_nil (x : Entry) : mark [] x = x.
Proof. reflexivity. Qed.

(** A pass over entries of the store, whatever the submitter answers. *)
Lemma syncEntries_any (l : list Entry) :
  forall s : Store,
    store_ok s -> incl l s -> NoDup (map date l) ->
    syncEntries submit l s =
    (map (mark (map date (accepted submit l))) s,
     alternating (accepted submit l) ++ stop_log submit l,
     stop_outcome submit l).
Proof.
  unfold stop_log, stop_outcome.
  induction l as [|e l IH]; intros s Hs Hin Hnd; simpl.
  - f_equal. f_equal. rewrite <- (map_id s) at 1. reflexivity.
  - destruct (submit e) eqn:He.
    + assert (Hes : In e s) by (apply Hin; now left).
      assert (Hput : put (set_synced e) s = map (mark [date e]) s).
      { rewrite put_replace; [|exact Hs|now exists e].
        apply map_ext_in. intros x Hx. unfold mark, has_date. simpl.
        rewrite orb_false_r.
        destruct (date x =? date e)%string eqn:Hd; [|reflexivity].
        apply String.eqb_eq in Hd.
        now rewrite (store_ok_date_inj s x e Hs Hx Hes Hd). }
      rewrite Hput.
      inversion Hnd as [|d ds Hnotin Hnd']; subst.
      rewrite IH; [rewrite map_map; f_equal; f_equal| | |exact Hnd'].
      * apply map_ext. intros x. apply mark_cons.
      * apply store_ok_map; [intros x; apply date_mark|exact Hs].
      * intros y Hy. apply in_map_iff. exists y. split; [|apply Hin; now right].
        unfold mark, has_date. simpl. rewrite orb_false_r.
        destruct (date y =? date e)%string eqn:Hd; [|reflexivity].
        apply String.eqb_eq in Hd. exfalso. apply Hnotin.
        rewrite <- Hd. now apply in_map.
    + simpl. f_equal. f_equal. rewrite <- (map_id s) at 1. reflexivity.
Qed.

Lemma onOnline_any (s : Store) :
  store_ok s ->
  fst (fst (onOnline submit s)) =
    map (mark (map date (accepted submit (getUnsyncedEntries s)))) s /\
  submissions (snd (fst (onOnline submit s))) =
    submissions (alternating (accepted submit (getUnsyncedEntries s))
                 ++ stop_log submit (getUnsyncedEntries s)) /\
  snd (onOnline submit s) = stop_outcome submit (getUnsyncedEntries s).
Proof.
  intros Hs. unfold onOnline.
  destruct (0 <? List.length (getUnsyncedEntries s))%nat eqn:Hn.
  - rewrite (syncEntries_any _ s Hs (unsynced_incl s) (unsynced_NoDup s Hs)).
    unfold stop_outcome, stop_log.
    destruct (first_rejected submit (getUnsyncedEntries s)); simpl.
    + auto.
    + repeat split. rewrite !submissions_app. simpl. now rewrite !app_nil_r.
  - apply Nat.ltb_ge in Hn.
    assert (Hnil : getUnsyncedEntries s = []).
    { destruct (getUnsyncedEntries s); [reflexivity|simpl in Hn; lia]. }
    rewrite Hnil. simpl. repeat split.
    rewrite <- (map_id s) at 1. reflexivity.
Qed.

Lemma accepted_prefix (l : list Entry) :
  exists rest,
    l = accepted submit l
        ++ match first_rejected submit l with
           | Some e => [e]
           | None => []
           end
        ++ rest.
Proof.
  induction l as [|e l [rest IH]]; simpl.
  - now exists [].
  - destruct (submit e); simpl.
    + exists rest. now rewrite <- IH.
    + now exists l.
Qed.

Lemma sorted_filter (keep : Entry -> bool) (s : Store) :
  store_ok s -> store_ok (filter keep s).
Proof.
  induction 1 as [|x r Hr IH Hx]; simpl; [constructor|].
  destruct (keep x); [|exact IH].
  constructor; [exact IH|].
  apply Forall_forall. intros y Hy. apply filter_In in Hy.
  rewrite Forall_forall in Hx. apply Hx. tauto.
Qed.

Lemma sorted_prefix (a b : Store) : store_ok (a ++ b) -> store_ok a.
Proof.
  induction a as [|x a IH]; simpl; intros H; [constructor|].
  apply store_ok_inv in H. destruct H as [Hr Hx].
  constructor; [exact (IH Hr)|].
  apply Forall_app in Hx. tauto.
Qed.

End SyncExtras.

Section SyncExtraTheorems.

Import DB NetworkStatus.

(** X5: whatever the remote service answers, a pass changes nothing but
    flags: the store has the same records in the same order with the same
    date, mood, note and timestamp, no record is added or removed, and the
    records whose flag is now set are the unsynced ones submitted with
    success before the first failure. *)
Theorem sync_changes_flags_only :
  forall (submit : Submitter) (s : Store),
    store_ok s ->
    getAll (fst (fst (onOnline submit s))) =
      map (mark (map date (accepted submit (getUnsyncedEntries s)))) (getAll s) /\
    map date (getAll (fst (fst (onOnline submit s)))) = map date (getAll s) /\
    map mood (getAll (fst (fst (onOnline submit s)))) = map mood (getAll s) /\
    map note (getAll (fst (fst (onOnline submit s)))) = map note (getAll s) /\
    map timestamp (getAll (fst (fst (onOnline submit s))))
      = map timestamp (getAll s) /\
    store_ok (fst (fst (onOnline submit s))).
Proof.
  intros submit s Hs. unfold getAll.
  destruct (onOnline_any submit s Hs) as [H _]. rewrite H.
  repeat split; try (rewrite map_map; apply map_ext; intros x; unfold mark;
                     now destruct (has_date _ x)).
  apply store_ok_map; [apply date_mark|exact Hs].
Qed.

Lemma sync_changes_flags_only_witness :
  map mood (getAll (fst (fst (onOnline Scenario.rejects_may15
                                Scenario.three_unsynced)))) = [4; 2; 5].
Proof.
  destruct (sync_changes_flags_only Scenario.rejects_may15
              Scenario.three_unsynced ltac:(repeat constructor))
    as [_ [_ [H _]]].
  rewrite H. reflexivity.
Defined.

(** X6: a pass submits the unsynced entries in ascending order of date,
    each at most once, starting with the first and without skipping any:
    what it submits is a prefix of the unsynced list, which ends with the
    entry whose submission failed when one did. *)
Theorem submissions_in_date_order :
  forall (submit : Submitter) (s : Store),
    store_ok s ->
    submissions (snd (fst (onOnline submit s))) =
      accepted submit (getUnsyncedEntries s)
      ++ match first_rejected submit (getUnsyncedEntries s) with
         | Some e => [e]
         | None => []
         end /\
    (exists rest,
       getUnsyncedEntries s = submissions (snd (fst (onOnline submit s))) ++ rest) /\
    StronglySorted (fun a b => key_lt (date a) (date b))
      (submissions (snd (fst (onOnline submit s)))) /\
    NoDup (map date (submissions (snd (fst (onOnline submit s))))).
Proof.
  intros submit s Hs.
  destruct (onOnline_any submit s Hs) as [_ [H _]].
  assert (Hsub : submissions (snd (fst (onOnline submit s))) =
                 accepted submit (getUnsyncedEntries s)
                 ++ match first_rejected submit (getUnsyncedEntries s) with
                    | Some e => [e]
                    | None => []
                    end).
  { rewrite H, submissions_app, submissions_alternating. unfold stop_log.
    now destruct (first_rejected submit (getUnsyncedEntries s)). }
  destruct (accepted_prefix submit (getUnsyncedEntries s)) as [rest Hrest].
  rewrite app_assoc, <- Hsub in Hrest.
  assert (Hsorted : store_ok (submissions (snd (fst (onOnline submit s))))).
  { apply (sorted_prefix _ rest). rewrite <- Hrest.
    now apply sorted_filter. }
  split; [exact Hsub|]. split; [now exists rest|].
  split; [exact Hsorted|now apply store_ok_NoDup].
Qed.

Lemma submissions_in_date_order_witness :
  submissions (snd (fst (onOnline simulated_request Scenario.three_unsynced)))
    = [Scenario.may01; Scenario.may15; Scenario.may20].
Proof.
  rewrite (proj1 (submissions_in_date_order simulated_request
                    Scenario.three_unsynced ltac:(repeat constructor))).
  reflexivity.
Defined.

(** X7: after a pass in which every submission succeeded, a further
    [online] event submits nothing and writes nothing, whatever the remote
    service would answer: it only shows the [online] banner. *)
Theorem second_pass_does_nothing :
  forall (submit submit' : Submitter) (s : Store),
    store_ok s ->
    (forall e, submit e = true) ->
    onOnline submit' (fst (fst (onOnline submit s))) =
      (fst (fst (onOnline submit s)),
       [ShowBanner BannerOnline None; AutoHide 4000], Resolved).
Proof.
  intros submit submit' s Hs Hok.
  rewrite (onOnline_all_ok submit s Hs Hok). simpl fst.
  unfold onOnline. now rewrite unsynced_converge.
Qed.

Lemma second_pass_does_nothing_witness :
  onOnline Scenario.rejects_may15
    (fst (fst (onOnline simulated_request Scenario.three_unsynced))) =
  ([set_synced Scenario.may01; set_synced Scenario.may15;
    set_synced Scenario.may20],
   [ShowBanner BannerOnline None; AutoHide 4000], Resolved).
Proof.
  apply (second_pass_does_nothing simulated_request Scenario.rejects_may15
           Scenario.three_unsynced ltac:(repeat constructor)
           (fun _ => eq_refl)).
Defined.

End SyncExtraTheorems.

(** ** More on tasks and events *)

Section TaskExtras.

Import DB NetworkStatus PageEvents.

Lemma done_stable (submit : Submitter) (j : nat) :
  forall (s : Store) (o : Outcome) (tr : list Effect),
    run submit (mkPage s [Done o] tr) (repeat (Settled 0) j) =
    mkPage s [Done o] tr.
Proof.
  induction j as [|j IH]; intros s o tr; [reflexivity|].
  simpl. rewrite app_nil_r. apply IH.
Qed.

Lemma loop_agrees_within (submit : Submitter) (l : list Entry) :
  forall (e : Entry) (s : Store) (tr : list Effect) (count : nat),
  exists k,
    (k <= 2 * S (List.length l))%nat /\
    run submit (mkPage s [AwaitSubmit e l count] (tr ++ [Submit e]))
        (repeat (Settled 0) k) =
    let '(s', log, o) := syncEntries submit (e :: l) s in
    mkPage s' [Done o] (tr ++ log ++ trailer o).
Proof.
  induction l as [|e2 l IH]; intros e s tr count.
  - destruct (submit e) eqn:He.
    + exists 2%nat. split; [simpl; lia|]. simpl. rewrite He. simpl.
      now rewrite <- !app_assoc.
    + exists 1%nat. split; [simpl; lia|]. simpl. rewrite He. simpl.
      now rewrite <- !app_assoc.
  - destruct (submit e) eqn:He.
    + destruct (IH e2 (put (set_synced e) s)
                  (tr ++ [Submit e; Put (set_synced e)]) count)
        as [k [Hb Hk]].
      exists (2 + k)%nat. split; [simpl in *; lia|].
      change (repeat (Settled 0) (2 + k))
        with ([Settled 0; Settled 0] ++ repeat (Settled 0) k).
      rewrite run_app.
      replace (run submit
                 (mkPage s [AwaitSubmit e (e2 :: l) count] (tr ++ [Submit e]))
                 [Settled 0; Settled 0])
        with (mkPage (put (set_synced e) s) [AwaitSubmit e2 l count]
                ((tr ++ [Submit e; Put (set_synced e)]) ++ [Submit e2])).
      * rewrite Hk.
        change (syncEntries submit (e :: e2 :: l) s)
          with (if submit e
                then let '(s', log, o) :=
                       syncEntries submit (e2 :: l) (put (set_synced e) s) in
                     (s', Submit e :: Put (set_synced e) :: log, o)
                else (s, [Submit e], Rejected)).
        rewrite He.
        destruct (syncEntries submit (e2 :: l) (put (set_synced e) s))
          as [[s' log] o].
        now rewrite <- !app_assoc.
      * simpl. rewrite He. simpl. now rewrite <- !app_assoc.
    + exists 1%nat. split; [simpl; lia|]. simpl. rewrite He. simpl.
      now rewrite <- !app_assoc.
Qed.

(** X8: the task started by one [online] event, resumed each time the
    promise it awaits settles and with no other event in between, ends
    after at most one resumption for the read and two per unsynced entry;
    it leaves the store, the effects and the outcome of [onOnline], and
    further settlements change nothing. *)
Theorem pass_ends_within_bound :
  forall (submit : Submitter) (s : Store) (k : nat),
    (1 + 2 * List.length (getUnsyncedEntries s) <= k)%nat ->
    run submit (mkPage s [] []) (Online :: repeat (Settled 0) k) =
    let '(s', log, o) := onOnline submit s in mkPage s' [Done o] log.
Proof.
  intros submit s k Hk. unfold onOnline.
  destruct (getUnsyncedEntries s) as [|e l] eqn:Hun.
  - destruct k as [|k]; [simpl in Hk; lia|].
    change (Online :: repeat (Settled 0) (S k))
      with ([Online; Settled 0] ++ repeat (Settled 0) k).
    rewrite run_app.
    replace (run submit (mkPage s [] []) [Online; Settled 0])
      with (mkPage s [Done Resolved] [ShowBanner BannerOnline None; AutoHide 4000]).
    + apply done_stable.
    + simpl. unfold getUnsyncedEntries in Hun. now rewrite Hun.
  - destruct (loop_agrees_within submit l e s
                [ShowBanner BannerSyncing (Some (List.length (e :: l)))]
                (List.length (e :: l))) as [k0 [Hb Hk0]].
    replace k with (1 + (k0 + (k - 1 - k0)))%nat by (simpl in *; lia).
    change (Online :: repeat (Settled 0) (1 + (k0 + (k - 1 - k0))))
      with ([Online; Settled 0] ++ repeat (Settled 0) (k0 + (k - 1 - k0))).
    rewrite repeat_app, !run_app.
    replace (run submit (mkPage s [] []) [Online; Settled 0])
      with (mkPage s [AwaitSubmit e l (List.length (e :: l))]
              ([ShowBanner BannerSyncing (Some (List.length (e :: l)))]
                 ++ [Submit e])).
    + rewrite Hk0.
      replace (0 <? List.length (e :: l))%nat with true by reflexivity.
      destruct (syncEntries submit (e :: l) s) as [[s' log] o].
      rewrite done_stable.
      destruct o; simpl; [reflexivity|now rewrite app_nil_r].
    + simpl. unfold getUnsyncedEntries in Hun. rewrite Hun. reflexivity.
Qed.

Lemma pass_ends_within_bound_witness :
  store (run simulated_request (mkPage Scenario.two_unsynced [] [])
           (Online :: repeat (Settled 0) 5)) =
  [set_synced Scenario.may01; set_synced Scenario.may15].
Proof.
  rewrite (pass_ends_within_bound simulated_request Scenario.two_unsynced 5
             ltac:(simpl; lia)).
  reflexivity.
Defined.

Lemma resume_nth_store (submit : Submitter) (ts : list Task) :
  forall (i : nat) (s : Store) (t : Task),
    nth_error ts i = Some t ->
    fst (fst (resume_nth submit s i ts)) = fst (fst (resume submit s t)).
Proof.
  induction ts as [|x ts IH]; intros [|i] s t; simpl; try discriminate.
  - intros [= ->]. now destruct (resume submit s t) as [[s' t'] log].
  - intros H. specialize (IH i s t H).
    destruct (resume_nth submit s i ts) as [[s' r'] log]. exact IH.
Qed.

(** X9: a pass holds the copy of an entry it read when it started.  When
    the user saves the same date again, or deletes it, while the pass awaits
    the submission of that entry, the pass then writes its copy back: the
    store ends with the old mood and note, flagged as synced, and the new
    record or the deletion is gone. *)
Theorem write_during_pass_is_overwritten :
  forall (submit : Submitter) (p : Page) (i : nat) (entry : Entry)
         (rest : list Entry) (count : nat)
         (m : option Z) (n : string) (now : Z) (onLine : bool),
    nth_error (tasks p) i = Some (AwaitSubmit entry rest count) ->
    submit entry = true ->
    get (date entry)
      (store (run_user submit p
                [SaveClick m (date entry) n now onLine;
                 Connectivity (Settled i)])) = Some (set_synced entry) /\
    get (date entry)
      (store (run_user submit p
                [DeleteClick (date entry); Connectivity (Settled i)]))
      = Some (set_synced entry).
Proof.
  intros submit p i entry rest count m n now onLine Hi Hok.
  assert (H : forall s0,
             store (handle submit (mkPage s0 (tasks p) (trace p)) (Settled i))
             = put (set_synced entry) s0).
  { intros s0. unfold handle.
    pose proof (resume_nth_store submit (tasks p) i s0 _ Hi) as Hs.
    cbn [store tasks trace].
    destruct (resume_nth submit s0 i (tasks p)) as [[s' ts'] log].
    cbn [store]. simpl in Hs. rewrite Hok in Hs. exact Hs. }
  split; unfold run_user; cbn [fold_left handle_user]; rewrite H;
    apply (get_put_same (set_synced entry)).
Qed.

Lemma write_during_pass_is_overwritten_witness :
  get "2024-05-01"
    (store (run_user simulated_request
              (mkPage [Scenario.may01] [AwaitSubmit Scenario.may01 [] 1] [])
              [SaveClick (Some 1) "2024-05-01" "bad day" 1714560000000 true;
               Connectivity (Settled 0)]))
  = Some (mkEntry "2024-05-01" 4 "ok" 1714550400000 (Some (JsBool true))).
Proof.
  apply (proj1 (write_during_pass_is_overwritten simulated_request
                  (mkPage [Scenario.may01] [AwaitSubmit Scenario.may01 [] 1] [])
                  0 Scenario.may01 [] 1 (Some 1) "bad day" 1714560000000 true
                  eq_refl eq_refl)).
Defined.

End TaskExtras.

(** ** More on the service worker *)

Section WorkerExtras.

Import SW.

Lemma caches_match_open (name u : string) (cs : CacheStorage) :
  caches_match u (caches_open name cs) = caches_match u cs.
Proof.
  induction cs as [|[n c] cs IH]; simpl; [reflexivity|].
  destruct (n =? name)%string; simpl; [reflexivity|].
  now rewrite IH.
Qed.

Lemma fetch_all_fails (net : Network) (urls : list string) (u : string) :
  In u urls ->
  (net u = None \/ exists r, net u = Some r /\ ok r = false) ->
  fetch_all net urls = None.
Proof.
  intros Hin Hbad. induction urls as [|v urls IH]; [contradiction|]. simpl.
  destruct Hin as [->|Hin].
  - destruct Hbad as [->|[r [-> Hr]]]; [reflexivity|].
    unfold addable. now rewrite Hr.
  - rewrite (IH Hin). destruct (net v) as [r|]; [|reflexivity].
    now destruct (addable r).
Qed.

Lemma fetch_all_succeeds (net : Network) (urls : list string) :
  (forall u, In u urls ->
     exists r, net u = Some r /\ ok r = true /\ status r <> 206) ->
  exists rs, fetch_all net urls = Some rs.
Proof.
  induction urls as [|v urls IH]; intros H; simpl; [now exists []|].
  destruct (H v (or_introl eq_refl)) as [r [Hr [Hok Hp]]].
  assert (Ha : addable r = true).
  { unfold addable, partial. rewrite Hok. simpl.
    apply negb_true_iff. now apply Z.eqb_neq. }
  rewrite Hr, Ha.
  destruct IH as [rs Hrs]; [intros u Hu; apply H; now right|].
  rewrite Hrs. now eexists.
Qed.

Lemma redundant_stays (l : list Step) :
  forall g, phase g = Redundant -> steps g l = g.
Proof.
  induction l as [|st l IH]; intros g Hg; [reflexivity|].
  unfold steps in *. simpl.
  assert (Hst : step g st = g).
  { destruct st; simpl; [unfold install_event|unfold message_event];
      now rewrite Hg. }
  rewrite Hst. now apply IH.
Qed.

(** X10: the precache is all or nothing.  When the fetch of one asset of
    the manifest fails, or answers with a status outside 200-299, the new
    generation ends [Redundant], no event makes it [Active] later, no
    document is added to the cache storage, and an older active generation
    stays as it was. *)
Theorem failed_install_changes_nothing :
  forall (net : Network) (cs : CacheStorage) (older : bool) (u : string),
    In u ASSETS ->
    (net u = None \/ exists r, net u = Some r /\ ok r = false) ->
    phase (install_event net (new_generation cs older)) = Redundant /\
    older_active (install_event net (new_generation cs older)) = older /\
    (forall v, caches_match v
                 (caches (worker (install_event net (new_generation cs older))))
               = caches_match v cs) /\
    (forall l, phase (steps (install_event net (new_generation cs older)) l)
               = Redundant).
Proof.
  intros net cs older u Hin Hbad.
  rewrite (install_event_failed net cs older (fetch_all_fails net _ u Hin Hbad)).
  repeat split.
  - intros v. apply caches_match_open.
  - intros l. now rewrite redundant_stays.
Qed.

Lemma failed_install_changes_nothing_witness :
  phase (install_event
           (fun u => if (u =? "./app.js")%string
                     then Some (mkResponse 404 TypeBasic "")
                     else Scenario.reachable u)
           (new_generation [] true)) = Redundant.
Proof.
  apply (failed_install_changes_nothing _ [] true "./app.js").
  - simpl. tauto.
  - right. eexists. split; reflexivity.
Defined.

Lemma purged_names (w : Worker) (name : string) (c : Cache) :
  In (name, c) (caches (on_activate w)) <->
  In (name, c) (caches w) /\ name = CACHE_NAME.
Proof.
  rewrite on_activate_caches, filter_In. simpl.
  now rewrite String.eqb_eq.
Qed.

(** X11: when every asset of the manifest is fetched with a status in
    200-299 other than 206 (a partial response, which [addAll] refuses),
    the generation becomes [Active], each asset then matches in the cache
    storage with the very response the network gave at install, and no
    cache object of another name is left. *)
Theorem successful_install_precaches_manifest :
  forall (net : Network) (cs : CacheStorage) (older : bool),
    (forall u, In u ASSETS ->
       exists r, net u = Some r /\ ok r = true /\ status r <> 206) ->
    phase (install_event net (new_generation cs older)) = Active /\
    (forall u, In u ASSETS ->
       caches_match u
         (caches (worker (install_event net (new_generation cs older))))
       = net u) /\
    (forall name c,
       In (name, c)
          (caches (worker (install_event net (new_generation cs older)))) ->
       name = CACHE_NAME).
Proof.
  intros net cs older Hall.
  destruct (fetch_all_succeeds net ASSETS Hall) as [rs Hf].
  rewrite (install_event_fulfilled net cs older rs Hf).
  destruct (fetch_all_In net ASSETS rs Hf) as [Hm Hn].
  split; [reflexivity|]. split.
  - intros u Hu. cbn [worker].
    destruct (precache_get net CACHE_NAME rs Hn (caches_open CACHE_NAME cs) u)
      as [c [Hc Hd]]; [now rewrite Hm|].
    destruct (Hall u Hu) as [r [Hr _]].
    rewrite on_activate_caches. cbn [caches]. rewrite Hr.
    apply (caches_match_kept CACHE_NAME u r _ c Hc). now rewrite Hd.
  - intros name c Hin. cbn [worker] in Hin. now apply purged_names in Hin.
Qed.

Lemma successful_install_precaches_manifest_witness :
  caches_match "./style.css"
    (caches (worker (install_event Scenario.reachable (new_generation [] false))))
  = Some (mkResponse 200 TypeBasic "./style.css").
Proof.
  assert (H : forall u, In u ASSETS ->
                exists r, Scenario.reachable u = Some r /\ ok r = true /\
                          status r <> 206).
  { intros u _. exists (mkResponse 200 TypeBasic u).
    split; [reflexivity|]. split; [reflexivity|discriminate]. }
  apply (proj1 (proj2 (successful_install_precaches_manifest
                         Scenario.reachable [] false H))).
  simpl. tauto.
Defined.

Lemma fetch_all_partial (net : Network) (urls : list string) (u : string)
    (r : Response) :
  In u urls -> net u = Some r -> status r = 206 -> fetch_all net urls = None.
Proof.
  intros Hin Hr Hp. induction urls as [|v urls IH]; [contradiction|].
  cbn [fetch_all]. destruct Hin as [->|Hin].
  - rewrite Hr. unfold addable, partial. rewrite Hp.
    now rewrite andb_false_r.
  - rewrite (IH Hin). destruct (net v) as [x|]; [|reflexivity].
    now destruct (addable x).
Qed.

(** A partial response for one asset of the manifest fails the install,
    as a status outside 200-299 does. *)
Lemma partial_asset_fails_install (net : Network) (cs : CacheStorage)
    (older : bool) (u : string) (r : Response) :
  In u ASSETS -> net u = Some r -> status r = 206 ->
  phase (install_event net (new_generation cs older)) = Redundant.
Proof.
  intros Hin Hr Hp.
  now rewrite (install_event_failed net cs older
                 (fetch_all_partial net ASSETS u r Hin Hr Hp)).
Qed.

(** X12: the [activate] listener deletes every cache object whose name is
    not [CACHE_NAME] and keeps, with their contents, those of that name; it
    claims the clients and leaves the [skipWaiting] flag alone. *)
Theorem activate_purges_other_caches :
  forall (w : Worker) (name : string) (c : Cache),
    (In (name, c) (caches (on_activate w)) <->
     In (name, c) (caches w) /\ name = CACHE_NAME) /\
    caches_get CACHE_NAME (caches (on_activate w))
      = caches_get CACHE_NAME (caches w) /\
    claimed (on_activate w) = true /\
    skipWaiting (on_activate w) = skipWaiting w.
Proof.
  intros w name c. split; [apply purged_names|].
  split; [|split; reflexivity].
  rewrite on_activate_caches.
  induction (caches w) as [|[n x] cs IH]; [reflexivity|].
  cbn [filter fst caches_get].
  destruct (n =? CACHE_NAME)%string eqn:Hn; [|exact IH].
  cbn [caches_get]. now rewrite Hn.
Qed.

Lemma caches_get_put_other (name name' u : string) (r : Response)
    (cs : CacheStorage) :
  name' <> name ->
  caches_get name' (caches_put name u r cs) = caches_get name' cs.
Proof.
  intros Hne. apply String.eqb_neq in Hne.
  induction cs as [|[n c] cs IH]; simpl.
  - rewrite String.eqb_sym. now rewrite Hne.
  - destruct (n =? name)%string eqn:Hn; simpl.
    + apply String.eqb_eq in Hn. subst n.
      rewrite String.eqb_sym. now rewrite Hne.
    + destruct (n =? name')%string; [reflexivity|exact IH].
Qed.



Lemma caches_get_try_put_other (name name' u : string) (r : Response)
    (cs : CacheStorage) :
  name' <> name ->
  caches_get name' (caches_try_put name u r cs) = caches_get name' cs.
Proof.
  intros Hne. unfold caches_try_put.
  destruct (partial r); [reflexivity|now apply caches_get_put_other].
Qed.

(** X14: handling a fetch never removes anything and never touches a cache
    object of another name: a URL that matched before still matches, and
    every cache object not named [CACHE_NAME] is as it was. *)
Theorem fetch_only_adds_to_current_cache :
  forall (net : Network) (cs : CacheStorage) (request : Request)
         (name u : string),
    (name <> CACHE_NAME ->
     caches_get name (caches_after (on_fetch net cs request))
     = caches_get name cs) /\
    (caches_match u cs <> None ->
     caches_match u (caches_after (on_fetch net cs request)) <> None).
Proof.
  intros net cs request name u. split; [|apply on_fetch_keeps].
  intros Hne. unfold on_fetch.
  destruct (mode request);
    repeat match goal with
           | |- context [match ?x with _ => _ end] => destruct x; simpl
           end;
    try reflexivity; now apply caches_get_try_put_other.
Qed.

(** X15: an asset fetched once with status 200 from the same origin is
    served from the cache from then on, with no fetch, also when the
    network is down and whatever other requests were handled in between;
    an asset that is not cached is refused when the network is down, and
    nothing is stored for it. *)
Theorem fetched_asset_is_served_offline :
  forall (net net' : Network) (cs : CacheStorage) (request : Request)
         (response : Response) (reqs : list (Network * Request)),
    mode request <> ModeNavigate ->
    caches_match (url request) cs = None ->
    net (url request) = Some response ->
    status response = 200 ->
    type response = TypeBasic ->
    on_fetch net' (caches_after (on_fetch net cs request)) request =
      {| result := Responded response;
         caches_after := caches_after (on_fetch net cs request);
         fetched := [] |} /\
    (exists cached,
       result (on_fetch net'
                 (serve (caches_after (on_fetch net cs request)) reqs)
                 request) = Responded cached) /\
    fetched (on_fetch net'
               (serve (caches_after (on_fetch net cs request)) reqs)
               request) = [] /\
    (net' (url request) = None ->
     on_fetch net' cs request =
       {| result := FetchRejected; caches_after := cs;
          fetched := [url request] |}).
Proof.
  intros net net' cs request response reqs Hmode Hmiss Hnet Hst Hty.
  assert (Hhit : caches_match (url request)
                   (caches_after (on_fetch net cs request)) = Some response).
  { unfold on_fetch.
    destruct (mode request); try congruence;
      rewrite Hmiss, Hnet; cbn [caches_after];
      unfold caches_try_put, partial; rewrite Hst, Hty;
      now apply caches_match_put_fresh. }
  assert (Hserved : caches_match (url request)
                      (serve (caches_after (on_fetch net cs request)) reqs)
                    <> None).
  { apply serve_keeps. congruence. }
  split; [|split; [|split]].
  - unfold on_fetch at 1. rewrite Hhit.
    destruct (mode request); try congruence; reflexivity.
  - unfold on_fetch at 1.
    destruct (caches_match (url request) (serve _ reqs)) as [d|];
      [|congruence].
    exists d. destruct (mode request); try congruence; reflexivity.
  - unfold on_fetch at 1.
    destruct (caches_match (url request) (serve _ reqs)) as [d|];
      [|congruence].
    destruct (mode request); try congruence; reflexivity.
  - intros Hdown. unfold on_fetch. rewrite Hmiss, Hdown.
    destruct (mode request); try congruence; reflexivity.
Qed.

Lemma fetched_asset_is_served_offline_witness :
  on_fetch Scenario.unreachable
    (caches_after (on_fetch Scenario.reachable []
                     (mkRequest "./data.json" ModeCors)))
    (mkRequest "./data.json" ModeCors) =
  {| result := Responded (mkResponse 200 TypeBasic "./data.json");
     caches_after :=
       [(CACHE_NAME, [("./data.json", mkResponse 200 TypeBasic "./data.json")])];
     fetched := [] |}.
Proof.
  apply (proj1 (fetched_asset_is_served_offline Scenario.reachable
                  Scenario.unreachable [] (mkRequest "./data.json" ModeCors)
                  (mkResponse 200 TypeBasic "./data.json") []
                  ltac:(discriminate) eq_refl eq_refl eq_refl eq_refl)).
Defined.

End WorkerExtras.

(** ** Dates as text *)

Section DateText.

Lemma digit_char_cases (d : Z) :
  0 <= d <= 9 ->
  d = 0 \/ d = 1 \/ d = 2 \/ d = 3 \/ d = 4 \/ d = 5 \/ d = 6 \/ d = 7 \/
  d = 8 \/ d = 9.
Proof. lia. Qed.

Lemma digit_of_digit_char (d : Z) :
  0 <= d <= 9 -> Js.digit_of (Js.digit_char d) = Some d.
Proof.
  intros H. destruct (digit_char_cases d H) as
    [->|[->|[->|[->|[->|[->|[->|[->|[->| ->]]]]]]]]]; reflexivity.
Qed.

Lemma is_digit_digit_char (d : Z) :
  0 <= d <= 9 -> is_digit (Js.digit_char d) = true.
Proof.
  intros H. destruct (digit_char_cases d H) as
    [->|[->|[->|[->|[->|[->|[->|[->|[->| ->]]]]]]]]]; reflexivity.
Qed.

Lemma value_digit_char (d : Z) :
  0 <= d <= 9 -> Z.of_N (N_of_ascii (Js.digit_char d)) - 48 = d.
Proof.
  intros H. destruct (digit_char_cases d H) as
    [->|[->|[->|[->|[->|[->|[->|[->|[->| ->]]]]]]]]]; reflexivity.
Qed.

Lemma all_digits_digits_of (f : nat) :
  forall (n : Z) (acc : string),
    0 <= n -> all_digits acc = true -> all_digits (Js.digits_of f n acc) = true.
Proof.
  induction f as [|f IH]; intros n acc Hn Hacc; simpl; [exact Hacc|].
  assert (Hd : all_digits (String (Js.digit_char (n mod 10)) acc) = true).
  { simpl. rewrite is_digit_digit_char, Hacc; [reflexivity|].
    pose proof (Z.mod_pos_bound n 10). lia. }
  destruct (n <? 10); [exact Hd|].
  apply IH; [|exact Hd]. apply Z.div_pos; lia.
Qed.

(** Reading back the digits that were printed. *)
Lemma digits_from_digits_of (f : nat) :
  forall (n : Z) (acc : string),
    0 <= n < 10 ^ Z.of_nat f ->
    Js.digits_from 0 (Js.digits_of f n acc) = Js.digits_from n acc.
Proof.
  induction f as [|f IH]; intros n acc Hn.
  - simpl in Hn. assert (n = 0) by lia. now subst.
  - cbn [Js.digits_of]. destruct (n <? 10) eqn:Hlt.
    + apply Z.ltb_lt in Hlt. rewrite Z.mod_small by lia.
      cbn [Js.digits_from]. rewrite digit_of_digit_char by lia.
      reflexivity.
    + apply Z.ltb_ge in Hlt. rewrite IH.
      * cbn [Js.digits_from]. rewrite digit_of_digit_char
          by (pose proof (Z.mod_pos_bound n 10); lia).
        f_equal. pose proof (Z.div_mod n 10). lia.
      * rewrite Nat2Z.inj_succ, Z.pow_succ_r in Hn by lia.
        split; [apply Z.div_pos; lia|].
        apply Z.div_lt_upper_bound; lia.
Qed.

Lemma enough_fuel (n : Z) :
  0 <= n -> n < 10 ^ Z.of_nat (S (Z.to_nat (Z.log2 n))).
Proof.
  intros Hn. rewrite Nat2Z.inj_succ, Z2Nat.id by apply Z.log2_nonneg.
  destruct (Z.eq_dec n 0) as [->|Hz]; [reflexivity|].
  pose proof (Z.log2_spec n ltac:(lia)) as [_ Hup].
  eapply Z.lt_le_trans; [exact Hup|].
  apply Z.pow_le_mono_l. pose proof (Z.log2_nonneg n). lia.
Qed.

(** [Number(String(n)) === n] for a natural number. *)
Lemma Number_to_string (n : Z) : 0 <= n -> Js.Number (Js.to_string n) = Js.Num n.
Proof.
  intros Hn. unfold Js.Number, Js.to_string.
  replace (n <? 0) with false by (symmetry; apply Z.ltb_ge; lia).
  rewrite digits_from_digits_of; [reflexivity|].
  split; [exact Hn|now apply enough_fuel].
Qed.

Lemma all_digits_to_string (n : Z) : 0 <= n -> all_digits (Js.to_string n) = true.
Proof.
  intros Hn. unfold Js.to_string.
  replace (n <? 0) with false by (symmetry; apply Z.ltb_ge; lia).
  now apply all_digits_digits_of.
Qed.

Lemma all_digits_fill (k : nat) (s : string) :
  all_digits s = true -> all_digits (Js.fill k "0" s) = true.
Proof. intros H. induction k as [|k IH]; simpl; [exact H|exact IH]. Qed.

Lemma digits_from_fill (k : nat) (s : string) :
  Js.digits_from 0 (Js.fill k "0" s) = Js.digits_from 0 s.
Proof. induction k as [|k IH]; simpl; [reflexivity|exact IH]. Qed.

Lemma is_digit_not_dash (c : ascii) : is_digit c = true -> Ascii.eqb c "-" = false.
Proof. intros H. apply Ascii.eqb_neq. intros ->. discriminate H. Qed.

(** Splitting at the first dash after a run of digits. *)
Lemma split_digits_dash (ds rest : string) :
  all_digits ds = true ->
  Js.split "-" (ds ++ String "-" rest) = ds :: Js.split "-" rest.
Proof.
  induction ds as [|c ds IH]; simpl; intros H; [reflexivity|].
  apply andb_true_iff in H. destruct H as [Hc Hds].
  rewrite (is_digit_not_dash c Hc), (IH Hds). reflexivity.
Qed.

Lemma split_digits (ds : string) :
  all_digits ds = true -> Js.split "-" ds = [ds].
Proof.
  induction ds as [|c ds IH]; simpl; intros H; [reflexivity|].
  apply andb_true_iff in H. destruct H as [Hc Hds].
  rewrite (is_digit_not_dash c Hc), (IH Hds). reflexivity.
Qed.

Lemma split_formatDate (d : Js.Date) :
  0 <= Js.getFullYear d -> 0 <= Js.getMonth d -> 0 <= Js.getDate d ->
  map Js.Number (Js.split "-" (formatDate d)) =
  [Js.Num (Js.getFullYear d); Js.Num (Js.getMonth d + 1); Js.Num (Js.getDate d)].
Proof.
  intros Hy Hm Hd. unfold formatDate. cbv zeta. cbn [String.append].
  rewrite split_digits_dash by now apply all_digits_to_string.
  rewrite split_digits_dash
    by (apply all_digits_fill, all_digits_to_string; lia).
  rewrite split_digits by (apply all_digits_fill, all_digits_to_string; lia).
  cbn [map]. rewrite Number_to_string by exact Hy.
  unfold Js.Number at 1 2, Js.padStart. rewrite !digits_from_fill.
  pose proof (Number_to_string (Js.getMonth d + 1) ltac:(lia)) as H1.
  pose proof (Number_to_string (Js.getDate d) Hd) as H2.
  unfold Js.Number in H1, H2. now rewrite H1, H2.
Qed.

(** X16: a record saved under the date [formatDate] prints for a day is
    found by [getByMonth] under that day's year and month index, and under
    no other pair. *)
Theorem formatDate_is_found_by_getByMonth :
  forall (d : Js.Date) (e : Entry) (s : DB.Store) (y m : Z),
    0 <= Js.getFullYear d <= 275760 ->
    0 <= Js.getMonth d <= 11 ->
    1 <= Js.getDate d <= 31 ->
    date e = formatDate d ->
    In e (DB.getAll s) ->
    (In e (DB.getByMonth y m s) <->
     y = Js.getFullYear d /\ m = Js.getMonth d).
Proof.
  intros d e s y m Hy Hm Hd He Hin.
  unfold DB.getByMonth. rewrite filter_In. unfold DB.in_month.
  rewrite He, split_formatDate by lia. cbn [nth_error Js.strict_eq_number].
  rewrite andb_true_iff, !Z.eqb_eq. intuition lia.
Qed.


Lemma formatDate_is_found_by_getByMonth_witness :
  In (mkEntry "2024-05-01" 4 "ok" 1714550400000 (Some (JsBool false)))
     (DB.getByMonth 2024 4 Scenario.three_unsynced).
Proof.
  apply (formatDate_is_found_by_getByMonth (Js.mkDate 2024 4 1)
           Scenario.may01 Scenario.three_unsynced 2024 4
           ltac:(simpl; lia) ltac:(simpl; lia) ltac:(simpl; lia) eq_refl
           ltac:(simpl; tauto)).
  split; reflexivity.
Defined.

Lemma two_digits (k : Z) :
  0 <= k <= 99 ->
  Js.padStart 2 "0" (Js.to_string k) =
  String (Js.digit_char (k / 10)) (String (Js.digit_char (k mod 10)) "").
Proof.
  intros Hk. unfold Js.to_string.
  replace (k <? 0) with false by (symmetry; apply Z.ltb_ge; lia).
  destruct (Z.ltb_spec k 10) as [Hlt|Hge].
  - cbn [Js.digits_of].
    replace (k <? 10) with true by (symmetry; apply Z.ltb_lt; lia).
    rewrite (Z.div_small k 10) by lia. reflexivity.
  - assert (Hl : 3 <= Z.log2 k).
    { change 3 with (Z.log2 8). apply Z.log2_le_mono. lia. }
    destruct (Z.to_nat (Z.log2 k)) as [|f] eqn:Hf; [lia|].
    cbn [Js.digits_of].
    replace (k <? 10) with false by (symmetry; apply Z.ltb_ge; lia).
    replace (k / 10 <? 10) with true
      by (symmetry; apply Z.ltb_lt; apply Z.div_lt_upper_bound; lia).
    rewrite (Z.mod_small (k / 10) 10)
      by (split; [apply Z.div_pos; lia|apply Z.div_lt_upper_bound; lia]).
    reflexivity.
Qed.

Lemma four_digits (y : Z) :
  1000 <= y <= 9999 ->
  Js.to_string y =
  String (Js.digit_char (y / 1000))
    (String (Js.digit_char (y / 100 mod 10))
       (String (Js.digit_char (y / 10 mod 10))
          (String (Js.digit_char (y mod 10)) ""))).
Proof.
  intros Hy. unfold Js.to_string.
  replace (y <? 0) with false by (symmetry; apply Z.ltb_ge; lia).
  assert (Hl : 9 <= Z.log2 y).
  { change 9 with (Z.log2 512). apply Z.log2_le_mono. lia. }
  destruct (Z.to_nat (Z.log2 y)) as [|[|[|f]]] eqn:Hf; try lia.
  cbn [Js.digits_of].
  replace (y <? 10) with false by (symmetry; apply Z.ltb_ge; lia).
  replace (y / 10 <? 10) with false
    by (symmetry; apply Z.ltb_ge; apply Z.div_le_lower_bound; lia).
  rewrite !Z.div_div by lia. change (10 * 10) with 100.
  change (100 * 10) with 1000.
  replace (y / 100 <? 10) with false
    by (symmetry; apply Z.ltb_ge; apply Z.div_le_lower_bound; lia).
  replace (y / 1000 <? 10) with true
    by (symmetry; apply Z.ltb_lt; apply Z.div_lt_upper_bound; lia).
  rewrite (Z.mod_small (y / 1000) 10)
    by (split; [apply Z.div_pos; lia|apply Z.div_lt_upper_bound; lia]).
  reflexivity.
Qed.

(** X17: for a day of a four-digit year, [formatDate] prints an ISO date
    of ten characters; its first four characters read as the year and its
    sixth and seventh as the month index plus one. *)
Theorem formatDate_prints_iso_date :
  forall d : Js.Date,
    1000 <= Js.getFullYear d <= 9999 ->
    0 <= Js.getMonth d <= 11 ->
    1 <= Js.getDate d <= 31 ->
    iso_date (formatDate d) = true /\
    String.length (formatDate d) = 10%nat /\
    year_of (formatDate d) = Js.getFullYear d /\
    month_of (formatDate d) = Js.getMonth d + 1.
Proof.
  intros [y m a]. cbn [Js.getFullYear Js.getMonth Js.getDate].
  intros Hy Hm Ha. unfold formatDate. cbv zeta.
  cbn [Js.getFullYear Js.getMonth Js.getDate].
  rewrite (four_digits y Hy), (two_digits (m + 1)), (two_digits a) by lia.
  pose proof (Z.mod_pos_bound y 10 ltac:(lia)).
  pose proof (Z.mod_pos_bound (y / 10) 10 ltac:(lia)).
  pose proof (Z.mod_pos_bound (y / 100) 10 ltac:(lia)).
  pose proof (Z.mod_pos_bound (m + 1) 10 ltac:(lia)).
  pose proof (Z.mod_pos_bound a 10 ltac:(lia)).
  assert (0 <= y / 1000 <= 9)
    by (split; [apply Z.div_pos; lia|
                apply Z.lt_succ_r, Z.div_lt_upper_bound; lia]).
  assert (0 <= (m + 1) / 10 <= 9)
    by (split; [apply Z.div_pos; lia|
                apply Z.lt_succ_r, Z.div_lt_upper_bound; lia]).
  assert (0 <= a / 10 <= 9)
    by (split; [apply Z.div_pos; lia|
                apply Z.lt_succ_r, Z.div_lt_upper_bound; lia]).
  unfold iso_date, year_of, month_of, decimal.
  cbn [String.append String.length substring all_digits decimal_from
       Nat.eqb String.eqb Ascii.eqb Bool.eqb andb].
  rewrite !is_digit_digit_char by lia.
  rewrite !value_digit_char by lia.
  repeat split.
  - pose proof (Z.div_mod y 10 ltac:(lia)).
    pose proof (Z.div_mod (y / 10) 10 ltac:(lia)).
    pose proof (Z.div_mod (y / 100) 10 ltac:(lia)).
    rewrite !Z.div_div in * by lia.
    change (10 * 10) with 100 in *. change (100 * 10) with 1000 in *. lia.
  - pose proof (Z.div_mod (m + 1) 10 ltac:(lia)). lia.
Qed.


Lemma formatDate_prints_iso_date_witness :
  formatDate (Js.mkDate 2024 4 1) = "2024-05-01" /\
  iso_date (formatDate (Js.mkDate 2024 4 1)) = true.
Proof.
  split; [reflexivity|].
  apply (formatDate_prints_iso_date (Js.mkDate 2024 4 1));
    simpl; lia.
Defined.

Lemma digits_of_not_empty (f : nat) :
  forall (k : Z) (acc : string), acc <> "" -> Js.digits_of f k acc <> "".
Proof.
  induction f as [|f IH]; intros k acc Ha; simpl; [exact Ha|].
  destruct (k <? 10); [discriminate|]. apply IH. discriminate.
Qed.

Lemma to_string_not_empty (n : Z) : Js.to_string n <> "".
Proof.
  unfold Js.to_string. destruct (n <? 0); [discriminate|].
  cbn [Js.digits_of]. destruct (n <? 10); [discriminate|].
  apply digits_of_not_empty. discriminate.
Qed.

End DateText.

(** ** The install banner *)

Section InstallPromptFacts.

Import InstallPrompt.

(** X18: once the install banner was dismissed, [showInstallBanner] shows
    it again only when at least seven days (604800000 ms) have passed on
    the clock since the dismissal; it shows it when it was never
    dismissed. *)
Theorem dismissed_banner_waits_seven_days :
  forall t0 now : Z,
    0 <= t0 <= 8640000000000000 ->
    showInstallBanner now (Some (dismissInstall t0)) =
      (604800000 <=? now - t0) /\
    showInstallBanner now None = true.
Proof.
  intros t0 now Ht. split; [|reflexivity].
  unfold showInstallBanner, dismissInstall.
  destruct (Js.to_string t0) as [|c r] eqn:Hs;
    [now destruct (to_string_not_empty t0)|].
  rewrite <- Hs, Number_to_string by lia. cbn [elapsed_below].
  change (7 * 24 * 60 * 60 * 1000) with 604800000.
  destruct (Z.ltb_spec (now - t0) 604800000);
    destruct (Z.leb_spec 604800000 (now - t0)); simpl; try reflexivity; lia.
Qed.

Lemma dismissed_banner_waits_seven_days_witness :
  showInstallBanner 1714636800000 (Some (dismissInstall 1714550400000)) = false.
Proof.
  rewrite (proj1 (dismissed_banner_waits_seven_days 1714550400000
                    1714636800000 ltac:(lia))).
  reflexivity.
Defined.

End InstallPromptFacts.

(** ** The counters of the statistics view *)

Section StatsFacts.

Import Stats.

Lemma with_mood_cons (m : Z) (e : Entry) (r : list Entry) :
  with_mood m (e :: r) = (if mood e =? m then 1 else 0) + with_mood m r.
Proof.
  unfold with_mood. simpl. destruct (mood e =? m); simpl List.length; lia.
Qed.

Lemma distribution_from (entries : list Entry) :
  (forall e, In e entries -> 1 <= mood e <= 5) ->
  forall c1 c2 c3 c4 c5 : Z,
    fold_left (fun a e => incr_at (mood e - 1) a) entries
      [Some (Js.Num c1); Some (Js.Num c2); Some (Js.Num c3);
       Some (Js.Num c4); Some (Js.Num c5)] =
    [Some (Js.Num (c1 + with_mood 1 entries));
     Some (Js.Num (c2 + with_mood 2 entries));
     Some (Js.Num (c3 + with_mood 3 entries));
     Some (Js.Num (c4 + with_mood 4 entries));
     Some (Js.Num (c5 + with_mood 5 entries))].
Proof.
  induction entries as [|e r IH]; intros Hr c1 c2 c3 c4 c5.
  - unfold with_mood. simpl. now rewrite !Z.add_0_r.
  - assert (Hm : 1 <= mood e <= 5) by (apply Hr; now left).
    assert (Hcases : mood e = 1 \/ mood e = 2 \/ mood e = 3 \/ mood e = 4 \/
                     mood e = 5) by lia.
    rewrite !with_mood_cons. cbn [fold_left].
    assert (Hrest : forall x, In x r -> 1 <= mood x <= 5)
      by (intros x Hx; apply Hr; now right).
    destruct Hcases as [H|[H|[H|[H|H]]]]; rewrite H.
    + change (incr_at (1 - 1) [Some (Js.Num c1); Some (Js.Num c2);
                Some (Js.Num c3); Some (Js.Num c4); Some (Js.Num c5)])
        with [Some (Js.Num (c1 + 1)); Some (Js.Num c2); Some (Js.Num c3);
              Some (Js.Num c4); Some (Js.Num c5)].
      rewrite (IH Hrest). simpl Z.eqb. cbv iota.
      rewrite !Z.add_0_l, Z.add_assoc. reflexivity.
    + change (incr_at (2 - 1) [Some (Js.Num c1); Some (Js.Num c2);
                Some (Js.Num c3); Some (Js.Num c4); Some (Js.Num c5)])
        with [Some (Js.Num c1); Some (Js.Num (c2 + 1)); Some (Js.Num c3);
              Some (Js.Num c4); Some (Js.Num c5)].
      rewrite (IH Hrest). simpl Z.eqb. cbv iota.
      rewrite !Z.add_0_l, Z.add_assoc. reflexivity.
    + change (incr_at (3 - 1) [Some (Js.Num c1); Some (Js.Num c2);
                Some (Js.Num c3); Some (Js.Num c4); Some (Js.Num c5)])
        with [Some (Js.Num c1); Some (Js.Num c2); Some (Js.Num (c3 + 1));
              Some (Js.Num c4); Some (Js.Num c5)].
      rewrite (IH Hrest). simpl Z.eqb. cbv iota.
      rewrite !Z.add_0_l, Z.add_assoc. reflexivity.
    + change (incr_at (4 - 1) [Some (Js.Num c1); Some (Js.Num c2);
                Some (Js.Num c3); Some (Js.Num c4); Some (Js.Num c5)])
        with [Some (Js.Num c1); Some (Js.Num c2); Some (Js.Num c3);
              Some (Js.Num (c4 + 1)); Some (Js.Num c5)].
      rewrite (IH Hrest). simpl Z.eqb. cbv iota.
      rewrite !Z.add_0_l, Z.add_assoc. reflexivity.
    + change (incr_at (5 - 1) [Some (Js.Num c1); Some (Js.Num c2);
                Some (Js.Num c3); Some (Js.Num c4); Some (Js.Num c5)])
        with [Some (Js.Num c1); Some (Js.Num c2); Some (Js.Num c3);
              Some (Js.Num c4); Some (Js.Num (c5 + 1))].
      rewrite (IH Hrest). simpl Z.eqb. cbv iota.
      rewrite !Z.add_0_l, Z.add_assoc. reflexivity.
Qed.

Lemma sum_from (entries : list Entry) :
  forall acc : Z,
    fold_left (fun a e => a + mood e) entries acc =
    acc + fold_left (fun a e => a + mood e) entries 0.
Proof.
  induction entries as [|e r IH]; intros acc; simpl; [lia|].
  rewrite IH, (IH (mood e)). lia.
Qed.

(** X19: for entries whose moods are all between 1 and 5, [distribution]
    is the array of five counters, the counter of index [i] being the
    number of entries of mood [i + 1]; the counters add up to [count], and
    the sum of the moods is the sum of the counters weighted by mood. *)
Theorem distribution_counts_moods :
  forall entries : list Entry,
    (forall e, In e entries -> 1 <= mood e <= 5) ->
    distribution entries =
      [Some (Js.Num (with_mood 1 entries)); Some (Js.Num (with_mood 2 entries));
       Some (Js.Num (with_mood 3 entries)); Some (Js.Num (with_mood 4 entries));
       Some (Js.Num (with_mood 5 entries))] /\
    with_mood 1 entries + with_mood 2 entries + with_mood 3 entries
      + with_mood 4 entries + with_mood 5 entries = count entries /\
    sum entries =
      with_mood 1 entries + 2 * with_mood 2 entries + 3 * with_mood 3 entries
      + 4 * with_mood 4 entries + 5 * with_mood 5 entries.
Proof.
  intros entries Hr. split; [|split].
  - unfold distribution. now rewrite distribution_from.
  - unfold count. induction entries as [|e r IH]; [reflexivity|].
    rewrite !with_mood_cons.
    specialize (IH (fun x Hx => Hr x (or_intror Hx))).
    pose proof (Hr e (or_introl eq_refl)) as Hm.
    change (List.length (e :: r)) with (S (List.length r)).
    rewrite Nat2Z.inj_succ, <- IH.
    destruct (Z.eqb_spec (mood e) 1), (Z.eqb_spec (mood e) 2),
      (Z.eqb_spec (mood e) 3), (Z.eqb_spec (mood e) 4),
      (Z.eqb_spec (mood e) 5); lia.
  - unfold sum. induction entries as [|e r IH]; [reflexivity|].
    rewrite !with_mood_cons. cbn [fold_left]. rewrite sum_from.
    rewrite (IH (fun x Hx => Hr x (or_intror Hx))).
    pose proof (Hr e (or_introl eq_refl)) as Hm.
    destruct (Z.eqb_spec (mood e) 1), (Z.eqb_spec (mood e) 2),
      (Z.eqb_spec (mood e) 3), (Z.eqb_spec (mood e) 4),
      (Z.eqb_spec (mood e) 5); lia.
Qed.

Lemma distribution_counts_moods_witness :
  distribution Scenario.three_unsynced =
  [Some (Js.Num 0); Some (Js.Num 1); Some (Js.Num 0); Some (Js.Num 1);
   Some (Js.Num 1)].
Proof.
  rewrite (proj1 (distribution_counts_moods Scenario.three_unsynced
                    ltac:(intros e [<-|[<-|[<-|[]]]]; simpl; lia))).
  reflexivity.
Defined.

End StatsFacts.

(** ** The add view *)

Section AddViewFacts.

Import DB UI.



End AddViewFacts.
